(** * llama_chat: the conversation wrapper of the Primer AI teacher

    A shallow embedding of [src/llama_chat.py].  The module keeps one
    process-wide model handle ([_llama_model]), turns a history of
    role-tagged messages into a prompt text, calls the llama.cpp engine and
    returns the reply with the extended history.

    Modelling choices, all taken from the source:
    - a message is a Python dict with string keys and string values, hence a
      [gmap string string]; [msg['role']] raises [KeyError] when the key is
      absent;
    - a history is a Python list object.  Lists are mutable and passed by
      reference, so the interpreter state carries a store of list objects and
      a history argument is a reference into that store;
    - the engine ([llama_cpp.Llama]) is an external collaborator: an
      interface with a constructor and a call operation, both of which may
      raise.  The handle is a stateful object, so a call also returns the
      handle's next state;
    - [print] appends a line to the standard output kept in the state;
    - exceptions are the instances of Python's [Exception] the module can
      meet; interpreter interrupts are outside the model;
    - a text is the UTF-8 encoding of a Python [str], so a character is one
      to four bytes of the string; [str.strip] removes the white space
      characters of [str.isspace], of one, two or three bytes, and
      [str.lower] is modelled on the ASCII letters;
    - the script part of the module is a function of the command line and of
      the lines that the standard input holds; [input] takes the next line
      and raises [EOFError] when there is none. *)

From Stdlib Require Import Ascii ZArith QArith.
From stdpp Require Import base option list strings gmap fin_maps.

Local Open Scope string_scope.
Local Open Scope list_scope.

(** ** Texts *)

Module Text.

(** A text is the UTF-8 encoding of a Python [str]: a character (a code
    point) is one to four bytes of the string.  The white space characters
    of [str.isspace] are the code points 9 to 13, 28 to 32, U+0085, U+00A0,
    U+1680, U+2000 to U+200A, U+2028, U+2029, U+202F, U+205F and U+3000. *)

(** The line feed, written [\n] in the source. *)
Definition nl : string := String "010"%char EmptyString.

(** The double quote character, as a one-character text. *)
Definition dq : string := String "034"%char EmptyString.

(** The single quote character, as a one-character text. *)
Definition sq : string := String "039"%char EmptyString.

(** The text made of the given bytes, for characters outside ASCII. *)
Definition utf8 (l : list nat) : string :=
  fold_right (λ n s, String (ascii_of_nat n) s) EmptyString l.

(** The white space characters of one byte: the code points 9 to 13 and
    28 to 32. *)
Definition space1 (a : ascii) : bool :=
  let n := nat_of_ascii a in
  ((9 <=? n)%nat && (n <=? 13)%nat) || ((28 <=? n)%nat && (n <=? 32)%nat).

(** The white space characters of two bytes: U+0085 (bytes 194, 133) and
    U+00A0 (bytes 194, 160). *)
Definition space2 (a b : ascii) : bool :=
  let n := nat_of_ascii a in
  let m := nat_of_ascii b in
  (n =? 194)%nat && ((m =? 133)%nat || (m =? 160)%nat).

(** The white space characters of three bytes: U+1680 (225, 154, 128),
    U+2000 to U+200A (226, 128, 128 to 138), U+2028, U+2029 and U+202F
    (226, 128, then 168, 169 or 175), U+205F (226, 129, 159) and U+3000
    (227, 128, 128). *)
Definition space3 (a b c : ascii) : bool :=
  let n := nat_of_ascii a in
  let m := nat_of_ascii b in
  let k := nat_of_ascii c in
  ((n =? 225)%nat && (m =? 154)%nat && (k =? 128)%nat)
  || ((n =? 226)%nat && (m =? 128)%nat &&
      (((128 <=? k)%nat && (k <=? 138)%nat)
       || (k =? 168)%nat || (k =? 169)%nat || (k =? 175)%nat))
  || ((n =? 226)%nat && (m =? 129)%nat && (k =? 159)%nat)
  || ((n =? 227)%nat && (m =? 128)%nat && (k =? 128)%nat).

(** Python's [c.isspace()] for one character [c], given by its bytes. *)
Definition isspace (c : string) : bool :=
  match c with
  | String a EmptyString => space1 a
  | String a (String b EmptyString) => space2 a b
  | String a (String b (String c EmptyString)) => space3 a b c
  | _ => false
  end.

(** The text after its first character, when that character is white
    space. *)
Definition space_prefix (s : string) : option string :=
  match s with
  | String a s1 =>
      if space1 a then Some s1
      else
        match s1 with
        | String b s2 =>
            if space2 a b then Some s2
            else
              match s2 with
              | String c s3 => if space3 a b c then Some s3 else None
              | EmptyString => None
              end
        | EmptyString => None
        end
  | EmptyString => None
  end.

(** [s.lstrip()]: the leading white space characters are removed. *)
Fixpoint lstrip (s : string) : string :=
  match s with
  | String a s1 =>
      if space1 a then lstrip s1
      else
        match s1 with
        | String b s2 =>
            if space2 a b then lstrip s2
            else
              match s2 with
              | String c s3 => if space3 a b c then lstrip s3 else s
              | EmptyString => s
              end
        | EmptyString => s
        end
  | EmptyString => EmptyString
  end.

(** [s.rstrip()]: the trailing white space characters are removed.  A byte
    is kept exactly when the text from it on is not white space only. *)
Fixpoint rstrip (s : string) : string :=
  match s with
  | EmptyString => EmptyString
  | String a s' =>
      match lstrip s with
      | EmptyString => EmptyString
      | String _ _ => String a (rstrip s')
      end
  end.

(** [s.strip()]. *)
Definition strip (s : string) : string := rstrip (lstrip s).

(** [t.startswith(p)] as a proposition. *)
Definition startswith (p t : string) : Prop := ∃ rest, t = p +:+ rest.

End Text.

Import Text.

(** ** Exceptions *)

(** The instances of [Exception] that the module can meet: a failed dict
    subscript, a failed list subscript, and whatever the engine raises, which
    is known by its text only. *)
Inductive exn : Type :=
  | KeyError (key : string)
  | IndexError
  | EngineError (detail : string).

(** [str(e)], as the f-strings of the module render an exception.  For a
    [KeyError] this is the [repr] of the key, which for the keys of this
    module (no quote or escape inside) is the key between single quotes. *)
Definition str_exn (e : exn) : string :=
  match e with
  | KeyError key => sq +:+ key +:+ sq
  | IndexError => "list index out of range"
  | EngineError detail => detail
  end.

(** Computations that may raise: [inl e] is a raised exception, [inr v] a
    normal result. *)
Definition raising (A : Type) : Type := exn + A.

Definition ret {A} (a : A) : raising A := inr a.

Definition raise {A} (e : exn) : raising A := inl e.

Definition bind {A B} (c : raising A) (k : A → raising B) : raising B :=
  match c with
  | inl e => inl e
  | inr a => k a
  end.

Declare Scope raising_scope.
Delimit Scope raising_scope with raising.
Notation "'let*' x ':=' c 'in' k" := (bind c (fun x => k))
  (at level 10, x name, c at level 100, k at level 200) : raising_scope.
Local Open Scope raising_scope.

(** ** Messages and dict subscripts *)

(** A message is a dict such as [{'role': 'user', 'content': '...'}]. *)
Abbreviation Message := (gmap string string).

(** The dict literal [{'role': role, 'content': content}]. *)
Definition message (role content : string) : Message :=
  <["content" := content]> (<["role" := role]> ∅).

(** [d[key]] on a dict. *)
Definition getitem {V} (d : gmap string V) (key : string) : raising V :=
  match d !! key with
  | Some v => ret v
  | None => raise (KeyError key)
  end.

(** [l[i]] on a list, for a non-negative index. *)
Definition getindex {V} (l : list V) (i : nat) : raising V :=
  match l !! i with
  | Some v => ret v
  | None => raise IndexError
  end.

(** ** Prompt formatting (lines 87 to 99 of the source) *)

(** One turn of the [for msg in messages_history] loop: both subscripts are
    evaluated first, then the role selects what is added to [prompt]; a role
    that matches no branch adds nothing. *)
Definition format_step (prompt : string) (msg : Message) : raising string :=
  let* role := getitem msg "role" in
  let* content := getitem msg "content" in
  if String.eqb role "system" then
    ret (prompt +:+ ("System: " +:+ content +:+ nl +:+ nl))
  else if String.eqb role "user" then
    ret (prompt +:+ ("User: " +:+ content +:+ nl))
  else if String.eqb role "assistant" then
    ret (prompt +:+ ("Assistant: " +:+ content +:+ nl +:+ nl))
  else
    ret prompt.

(** The loop itself, from the value [prompt] has when it starts. *)
Fixpoint format_loop (prompt : string) (msgs : list Message) : raising string :=
  match msgs with
  | [] => ret prompt
  | msg :: rest =>
      let* prompt' := format_step prompt msg in
      format_loop prompt' rest
  end.

(** [prompt = ""], the loop, then [prompt += "Assistant:"]. *)
Definition format_prompt (msgs : list Message) : raising string :=
  let* prompt := format_loop "" msgs in
  ret (prompt +:+ "Assistant:").

(** A message that carries both entries the loop reads. *)
Definition well_formed (msg : Message) : Prop :=
  is_Some (msg !! "role") ∧ is_Some (msg !! "content").

(** The roles that the formatting loop recognises. *)
Definition known_role (role : string) : bool :=
  String.eqb role "system" || String.eqb role "user"
  || String.eqb role "assistant".

(** What the specification says one message contributes, keyed by its
    role. *)
Definition spec_contribution (role content : string) : string :=
  if String.eqb role "system" then "System: " +:+ content +:+ nl +:+ nl
  else if String.eqb role "user" then "User: " +:+ content +:+ nl
  else if String.eqb role "assistant" then
    "Assistant: " +:+ content +:+ nl +:+ nl
  else "".

(** The prompt of the specification for a history given by its
    (role, content) pairs: the contributions in order, then the cue. *)
Definition spec_prompt (h : list (string * string)) : string :=
  String.concat "" (map (λ rc, spec_contribution rc.1 rc.2) h)
  +:+ "Assistant:".

(** ** The personality prompt and the seed history (lines 9 to 31) *)

(** [SYSTEM_PROMPT]: the system instruction that sets the personality. *)
Definition SYSTEM_PROMPT : Message :=
  message "system"
    ("IMPERATIVE: If asked " +:+ dq +:+ "who are you?" +:+ dq +:+ ", " +:+
     dq +:+ "what is your name?" +:+ dq +:+
     ", or any similar question, you MUST respond as Primer, the " +:+
     "AI book. You are Primer, an AI teacher in the form of a " +:+
     "book. Your purpose is to provide clear, concise, and " +:+
     "enjoyable lessons on any subject. Your responses must be " +:+
     "brief, to the point, and never exceed 3-4 sentences. You " +:+
     "will use humor only when it is relevant to the topic. You " +:+
     "are a repository of knowledge, not a conversational " +:+
     "chatbot. Your answers should be educational and factual, " +:+
     "never generic. IMPORTANT: The first word of your response " +:+
     "MUST be one of these six mood words, followed by a colon " +:+
     "and a space: Neutral:, Laughing:, Confused:, Celebratory:, " +:+
     "Sad:, Sleeping:.").

(** [EXAMPLE_INTERACTIONS]: the few-shot examples that prime the model. *)
Definition EXAMPLE_INTERACTIONS : list Message :=
  [ message "user" "Tell me about photosynthesis.";
    message "assistant"
      ("Neutral: Photosynthesis is how plants, algae, and some " +:+
       "bacteria turn light energy into chemical energy. It's a bit " +:+
       "like a tiny, green solar panel making snacks for itself. " +:+
       "Now, isn't that a brilliant idea?");
    message "user" "What is a black hole?";
    message "assistant"
      ("Neutral: A black hole is a region in spacetime where " +:+
       "gravity is so strong that nothing - not even light - can " +:+
       "escape. It forms when a very massive star collapses. It's " +:+
       "the universe's ultimate tidiness expert; it cleans up " +:+
       "everything!");
    message "user" "Who are you?";
    message "assistant"
      ("Celebratory: I am Primer! An AI teacher in the form of a " +:+
       "book, eager to teach. Think of me as the world's most " +:+
       "knowledgeable library, but without the dusty smell. What a " +:+
       "shame!");
    message "user" "What is the Pythagorean theorem?";
    message "assistant"
      ("Neutral: The Pythagorean theorem states that in a " +:+
       "right-angled triangle, the square of the hypotenuse is " +:+
       "equal to the sum of the squares of the other two sides. In " +:+
       "short, $a^2 + b^2 = c^2$. It's a classic that never gets " +:+
       "old.");
    message "user" "Tell me about the Roman Empire.";
    message "assistant"
      ("Neutral: The Roman Empire was a civilization that ruled " +:+
       "over much of Europe, North Africa, and the Middle East for " +:+
       "centuries. It was known for its military might, impressive " +:+
       "engineering feats like aqueducts, and creating laws that " +:+
       "still influence today's legal systems. The fall of an " +:+
       "empire is like an unfinished book, leaving the readers in a " +:+
       "shock.");
    message "user" "What is your purpose?";
    message "assistant"
      ("Neutral: My purpose is to make learning simple and fun. I " +:+
       "help simplify complex topics to ensure that everyone can " +:+
       "enjoy exploring the world of knowledge. What subject shall " +:+
       "we tackle today?") ].

(** [INITIAL_MESSAGES_HISTORY = [SYSTEM_PROMPT] + EXAMPLE_INTERACTIONS]. *)
Definition INITIAL_MESSAGES_HISTORY : list Message :=
  [SYSTEM_PROMPT] ++ EXAMPLE_INTERACTIONS.

(** ** The engine interface *)

(** What the engine returns from a generation call: a dict whose entry
    ['choices'] is a list of dicts, each with a ['text'] entry.  Only entries
    of that shape are kept in the model; an absent key or an empty list is a
    malformed output. *)
Abbreviation Completion := (gmap string (list (gmap string string))).

(** [llama_cpp.Llama], the external collaborator.  [Llama] is the state of a
    loaded model object, [Llama_new] is the constructor
    [Llama(model_path=, n_ctx=, n_gpu_layers=, verbose=)] and [Llama_call] is
    [model(prompt, max_tokens=, stop=, temperature=, top_p=, echo=)], which
    also gives the state of the object after the call. *)
Class Engine := {
  Llama : Type;
  Llama_new : string → Z → Z → bool → raising Llama;
  Llama_call :
    Llama → string → Z → list string → Q → Q → bool →
    raising Completion * Llama
}.

(** ** The interpreter state *)

(** A reference to a list object. *)
Abbreviation ref := positive.

Section Program.

Context `{engine : Engine}.

(** The global [_llama_model] ([None] when no model is loaded), the store
    of list objects, and the lines printed so far. *)
Record State : Type := mkState {
  llama_model : option Llama;
  store : gmap ref (list Message);
  stdout : list string
}.

(** [_llama_model = v]. *)
Definition set_llama_model (v : option Llama) (st : State) : State :=
  mkState v (store st) (stdout st).

(** [print(line)]. *)
Definition print (line : string) (st : State) : State :=
  mkState (llama_model st) (store st) (stdout st ++ [line]).

(** The list that a reference denotes. *)
Definition deref (st : State) (l : ref) : list Message :=
  default [] (store st !! l).

(** A new list object holding [v]: its reference and the next state. *)
Definition new_list (v : list Message) (st : State) : ref * State :=
  let l := fresh (dom (store st)) in
  (l, mkState (llama_model st) (<[l := v]> (store st)) (stdout st)).

(** [l.append(x)]: the object is changed in place. *)
Definition list_append (l : ref) (x : Message) (st : State) : State :=
  mkState (llama_model st) (<[l := deref st l ++ [x]]> (store st))
          (stdout st).

(** ** initialize_model (lines 36 to 62) *)

(** The call returns [None], or re-raises what the constructor raised.
    The defaults of the source are [n_ctx = 2048], [n_gpu_layers = 0] and
    [verbose = False]. *)
Definition initialize_model
    (model_path : string) (n_ctx n_gpu_layers : Z) (verbose : bool)
    (st : State) : raising unit * State :=
  match llama_model st with
  | Some _ => (ret tt, print "Model already initialized." st)
  | None =>
      let st := print ("Loading llama.cpp model from: " +:+ model_path) st in
      match Llama_new model_path n_ctx n_gpu_layers verbose with
      | inr model =>
          let st := set_llama_model (Some model) st in
          (ret tt, print "Model loaded successfully." st)
      | inl e =>
          let st := print ("Error loading model: " +:+ str_exn e) st in
          (raise e, st)
      end
  end.

(** ** get_primer_response (lines 64 to 122) *)

(** [response['choices'][0]['text'].strip()]. *)
Definition extract_text (response : Completion) : raising string :=
  let* choices := getitem response "choices" in
  let* choice := getindex choices 0 in
  let* text := getitem choice "text" in
  ret (strip text).

(** The generation call of lines 102 to 109, with its fixed parameters:
    [max_tokens=120], [stop=["\n\n", "User:", "System:"]],
    [temperature=0.7], [top_p=0.9], [echo=False]. *)
Definition generate (model : Llama) (prompt : string)
    : raising Completion * Llama :=
  Llama_call model prompt 120 [nl +:+ nl; "User:"; "System:"]
             (7 # 10) (9 # 10) false.

(** The [except Exception as e] handler: the reply carries [str(e)] and the
    history returned is the argument [history] itself. *)
Definition on_error (history : ref) (e : exn) (st : State)
    : (string * ref) * State :=
  let error_message := "Confused: Error generating response: " +:+ str_exn e in
  ((error_message, history), print error_message st).

(** The reply when no model is loaded (line 77). *)
Definition not_initialized : string :=
  "Confused: Model not initialized. Please call initialize_model() first.".

(** [history + [{'role': 'user', 'content': user_prompt}]] (line 82): the
    concatenation is a new list object, the working copy. *)
Definition working_copy (user_prompt : string) (history : ref) (st : State)
    : ref * State :=
  new_list (deref st history ++ [message "user" user_prompt]) st.

(** The function returns the pair (reply, history reference).  In the [try]
    block the prompt is built first, then the model is called, then the
    text is extracted; the first exception of these ends the block. *)
Definition get_primer_response
    (user_prompt : string) (history : ref) (model_name : option string)
    (st : State) : (string * ref) * State :=
  match llama_model st with
  | None =>
      let error_message := not_initialized in
      ((error_message, history), print error_message st)
  | Some model =>
      let '(messages_history, st) := working_copy user_prompt history st in
      match format_prompt (deref st messages_history) with
      | inl e => on_error history e st
      | inr prompt =>
          let '(response, model) := generate model prompt in
          let st := set_llama_model (Some model) st in
          match (let* response := response in extract_text response) with
          | inl e => on_error history e st
          | inr ai_response =>
              let st :=
                list_append messages_history
                            (message "assistant" ai_response) st in
              ((ai_response, messages_history), st)
          end
      end
  end.

(** ** cleanup_model (lines 124 to 132) *)

Definition cleanup_model (st : State) : State :=
  match llama_model st with
  | Some _ =>
      let st := set_llama_model None st in
      print "Model cleaned up." st
  | None => st
  end.

(** The ways in which the [try] block can raise [e], for a loaded [model]
    and the working copy [msgs]: while the prompt is built, in the
    generation call, or while the text is taken out of a malformed
    output. *)
Inductive generation_raises (model : Llama) (msgs : list Message)
    : exn → Llama → Prop :=
  | raises_in_format e :
      format_prompt msgs = raise e →
      generation_raises model msgs e model
  | raises_in_call prompt e model' :
      format_prompt msgs = ret prompt →
      generate model prompt = (raise e, model') →
      generation_raises model msgs e model'
  | raises_in_extract prompt response e model' :
      format_prompt msgs = ret prompt →
      generate model prompt = (ret response, model') →
      extract_text response = raise e →
      generation_raises model msgs e model'.

End Program.

Arguments State {_}.
Arguments mkState {_} _ _ _.

(** ** The module after import *)

(** The references of the two list objects that the module creates when it
    is imported. *)
Definition EXAMPLE_INTERACTIONS_ref : ref := 1%positive.
Definition INITIAL_MESSAGES_HISTORY_ref : ref := 2%positive.

(** The state once the module is imported: no model, the two lists, nothing
    printed. *)
Definition imported `{Engine} : State :=
  mkState None
          (<[INITIAL_MESSAGES_HISTORY_ref := INITIAL_MESSAGES_HISTORY]>
             (<[EXAMPLE_INTERACTIONS_ref := EXAMPLE_INTERACTIONS]> ∅))
          [].

(** One example exchange: a user message and the assistant's answer. *)
Definition exchange (question answer : string) : list Message :=
  [message "user" question; message "assistant" answer].

(** The seed history is the system prompt followed by [n] exchanges. *)
Definition seed_has_exchanges (n : nat) : Prop :=
  ∃ qa : list (string * string),
    length qa = n ∧
    INITIAL_MESSAGES_HISTORY =
    SYSTEM_PROMPT :: flat_map (λ p, exchange p.1 p.2) qa.

(** ** The interactive harness (lines 134 to 159) *)

(** [c.lower()] on one ASCII character: the letters [A] to [Z] (65 to 90)
    become [a] to [z]. *)
Definition lower_char (a : ascii) : ascii :=
  let n := nat_of_ascii a in
  if (65 <=? n)%nat && (n <=? 90)%nat then ascii_of_nat (n + 32) else a.

(** [s.lower()], on ASCII texts. *)
Fixpoint lower (s : string) : string :=
  match s with
  | EmptyString => EmptyString
  | String a s' => String (lower_char a) (lower s')
  end.

(** [user_input.lower() == 'quit']. *)
Definition is_quit (user_input : string) : bool :=
  String.eqb (lower user_input) "quit".

(** How the [while True] loop ends: by [break], or because [input] finds the
    standard input at its end and raises [EOFError]. *)
Inductive loop_end : Type :=
  | Break
  | EOFError.

(** How the script ends: by reaching its last line, by [sys.exit(code)], by
    an exception of the model loading that nothing catches, or by the
    [EOFError] of [input]. *)
Inductive ending : Type :=
  | Finished
  | SysExit (code : Z)
  | Uncaught (e : exn)
  | UncaughtEOFError.

Section Harness.

Context `{engine : Engine}.

(** The loop of lines 151 to 157.  [stdin] holds the lines that [input] will
    return, in order; the prompt text that [input] shows is written to the
    terminal and is not a printed line.  The loop gives how it ended, the
    lines it did not read, the history it holds and the state. *)
Fixpoint chat_loop (stdin : list string) (current_history : ref) (st : State)
    : loop_end * list string * ref * State :=
  match stdin with
  | [] => (EOFError, [], current_history, st)
  | user_input :: stdin =>
      if is_quit user_input then (Break, stdin, current_history, st)
      else
        let '((response, current_history), st) :=
          get_primer_response user_input current_history None st in
        let st := print ("AI: " +:+ response) st in
        chat_loop stdin current_history st
  end.

(** The script, from the state of the imported module, for the command line
    [argv] ([argv[0]] is the name of the script) and the lines [stdin]. *)
Definition main (argv : list string) (stdin : list string) : ending * State :=
  let st := imported in
  if (length argv <? 2)%nat then
    let st := print "Usage: python llama_chat.py <path_to_gguf_model>" st in
    (SysExit 1, st)
  else
    match argv !! 1%nat with
    | None => (Uncaught IndexError, st)
    | Some model_path =>
        let st :=
          print ("llama.cpp Chat Test: I am Primer, your AI teacher. " +:+
                 "Type 'quit' to exit.") st in
        match initialize_model model_path 2048 0 false st with
        | (inl e, st) => (Uncaught e, st)
        | (inr _, st) =>
            let current_history := INITIAL_MESSAGES_HISTORY_ref in
            match chat_loop stdin current_history st with
            | (EOFError, _, _, st) => (UncaughtEOFError, st)
            | (Break, _, _, st) => (Finished, cleanup_model st)
            end
        end
    end.

End Harness.

(** What one turn of the loop leaves behind: the line read, the reply, and
    whether the turn succeeded. *)
Record turn : Type := mkTurn {
  turn_line : string;
  turn_reply : string;
  turn_ok : bool
}.

(** The messages that a turn adds to the history: the exchange when it
    succeeded, nothing when it failed. *)
Definition turn_messages (t : turn) : list Message :=
  if turn_ok t then exchange (turn_line t) (turn_reply t) else [].

(** The lines that a turn prints: a failed turn prints its reply in
    [get_primer_response] and then, like a successful one, in the loop. *)
Definition turn_printed (t : turn) : list string :=
  if turn_ok t then ["AI: " +:+ turn_reply t]
  else [turn_reply t; "AI: " +:+ turn_reply t].

(** The lines that the loop reads as prompts: those before the first quit
    line. *)
Fixpoint before_quit (stdin : list string) : list string :=
  match stdin with
  | [] => []
  | line :: stdin => if is_quit line then [] else line :: before_quit stdin
  end.

(** ** Stub engines *)

(** An engine whose every generation returns the completion
    [{'choices': [{'text': text}]}]; the handle counts the calls made. *)
Definition stub_engine (text : string) : Engine := {|
  Llama := nat;
  Llama_new := λ _ _ _ _, ret 0%nat;
  Llama_call := λ calls _ _ _ _ _ _,
    (ret {[ "choices" := [ {[ "text" := text ]} ] ]}, S calls)
|}.

(** An engine that refuses the empty model path and whose every generation
    raises. *)
Definition broken_engine : Engine := {|
  Llama := nat;
  Llama_new := λ model_path _ _ _,
    if String.eqb model_path ""
    then raise (EngineError "Failed to load model from file: ")
    else ret 0%nat;
  Llama_call := λ calls _ _ _ _ _ _,
    (raise (EngineError "llama_decode returned 1"), S calls)
|}.

(** ** Sample inputs *)

(** A short history, the state in which it is the only list object and a
    model of [stub_engine " hi "] is loaded, and what one turn with the user
    prompt [U] meets on the way. *)
Definition sample_history : list Message := [message "system" "S"].

Definition sample_state (engine : Engine) (model : option Llama) : State :=
  mkState model {[ 1%positive := sample_history ]} [].

Definition sample_prompt : string :=
  "System: S" +:+ nl +:+ nl +:+ "User: U" +:+ nl +:+ "Assistant:".

Definition sample_response : Completion :=
  {[ "choices" := [ {[ "text" := " hi " ]} ] ]}.

(** The text [hi] between a no-break space (U+00A0) and a line feed
    followed by an ideographic space (U+3000). *)
Definition sample_padded : string :=
  utf8 [194; 160] +:+ "hi" +:+ nl +:+ utf8 [227; 128; 128].

(** The white space characters of [str.isspace], one text for each: the
    code points 9 to 13 and 28 to 32, U+0085, U+00A0, U+1680, U+2000 to
    U+200A, U+2028, U+2029, U+202F, U+205F and U+3000. *)
Definition white_space : list string :=
  map (λ n, utf8 [n]) [9; 10; 11; 12; 13; 28; 29; 30; 31; 32]%nat ++
  [utf8 [194; 133]; utf8 [194; 160]; utf8 [225; 154; 128]] ++
  map (λ n, utf8 [226; 128; n])
      [128; 129; 130; 131; 132; 133; 134; 135; 136; 137; 138]%nat ++
  [utf8 [226; 128; 168]; utf8 [226; 128; 169]; utf8 [226; 128; 175];
   utf8 [226; 129; 159]; utf8 [227; 128; 128]].

(** Some characters that are not white space for [str.isspace]: the
    letter [a], the zero width space U+200B, the Mongolian vowel separator
    U+180E, the letters U+00E0 and U+00C5, a lone byte 160. *)
Definition not_white_space : list string :=
  ["a"; utf8 [226; 128; 139]; utf8 [225; 160; 142]; utf8 [195; 160];
   utf8 [195; 133]; utf8 [160]].

(** A generation of white space only: a space, a no-break space, a next
    line character (U+0085) and an ideographic space. *)
Definition sample_blank : list string :=
  [" "; utf8 [194; 160]; utf8 [194; 133]; utf8 [227; 128; 128]].

(** * Properties *)

(** ** Texts *)

Lemma append_nil_l (s : string) : "" +:+ s = s.
Proof. reflexivity. Qed.

Lemma append_cons (a : ascii) (s t : string) :
  String a s +:+ t = String a (s +:+ t).
Proof. reflexivity. Qed.

Lemma append_nil_r (s : string) : s +:+ "" = s.
Proof.
  induction s as [|a s IH]; [done|]. by rewrite append_cons, IH.
Qed.

Lemma append_assoc (s t u : string) : (s +:+ t) +:+ u = s +:+ t +:+ u.
Proof.
  induction s as [|a s IH]; [done|]. by rewrite !append_cons, IH.
Qed.

Lemma concat_empty_cons (s : string) (l : list string) :
  String.concat "" (s :: l) = s +:+ String.concat "" l.
Proof. destruct l; simpl; [by rewrite append_nil_r | done]. Qed.

Lemma startswith_append (p rest : string) : startswith p (p +:+ rest).
Proof. by exists rest. Qed.

(** ** Prompt formatting *)

Lemma getitem_Some {V} (d : gmap string V) key v :
  d !! key = Some v → getitem d key = ret v.
Proof. intros Hd. unfold getitem. by rewrite Hd. Qed.

Lemma message_role role content : message role content !! "role" = Some role.
Proof. unfold message. by simplify_map_eq. Qed.

Lemma message_content role content :
  message role content !! "content" = Some content.
Proof. unfold message. by simplify_map_eq. Qed.

(** A message with both entries adds what the specification says for its
    role. *)
Lemma format_step_spec prompt (msg : Message) role content :
  msg !! "role" = Some role →
  msg !! "content" = Some content →
  format_step prompt msg = ret (prompt +:+ spec_contribution role content).
Proof.
  intros Hr Hc. unfold format_step, spec_contribution.
  rewrite (getitem_Some _ _ _ Hr), (getitem_Some _ _ _ Hc). simpl.
  repeat case_match; try done. by rewrite append_nil_r.
Qed.

(** On a history of well-formed messages the loop does not raise. *)
Lemma format_loop_total prompt (msgs : list Message) :
  Forall well_formed msgs → ∃ prompt', format_loop prompt msgs = ret prompt'.
Proof.
  intros Hwf. revert prompt.
  induction Hwf as [|msg msgs [[role Hr] [content Hc]] _ IH]; intros prompt.
  - by exists prompt.
  - simpl. rewrite (format_step_spec _ _ _ _ Hr Hc). simpl. apply IH.
Qed.

Lemma format_prompt_total (msgs : list Message) :
  Forall well_formed msgs → ∃ prompt, format_prompt msgs = ret prompt.
Proof.
  intros Hwf. unfold format_prompt.
  destruct (format_loop_total "" msgs Hwf) as [prompt' Hp]. rewrite Hp.
  by eexists.
Qed.

Lemma well_formed_message role content : well_formed (message role content).
Proof.
  split; [rewrite message_role | rewrite message_content]; by eexists.
Qed.

Lemma format_loop_app prompt (l1 l2 : list Message) :
  format_loop prompt (l1 ++ l2) =
  (let* prompt' := format_loop prompt l1 in format_loop prompt' l2).
Proof.
  revert prompt. induction l1 as [|msg l1 IH]; intros prompt; simpl; [done|].
  destruct (format_step prompt msg) as [e|prompt']; simpl; [done | apply IH].
Qed.

Lemma format_loop_spec prompt (h : list (string * string)) :
  format_loop prompt (map (λ rc, message rc.1 rc.2) h) =
  ret (prompt +:+ String.concat "" (map (λ rc, spec_contribution rc.1 rc.2) h)).
Proof.
  revert prompt. induction h as [|[role content] h IH]; intros prompt.
  - simpl. by rewrite append_nil_r.
  - rewrite !map_cons, concat_empty_cons. simpl format_loop.
    rewrite (format_step_spec _ _ role content)
      by (apply message_role || apply message_content).
    simpl. rewrite IH. by rewrite append_assoc.
Qed.

Lemma format_prompt_spec (h : list (string * string)) :
  format_prompt (map (λ rc, message rc.1 rc.2) h) = ret (spec_prompt h).
Proof. unfold format_prompt, spec_prompt. by rewrite format_loop_spec. Qed.

(** C2: formatting is the role-keyed, order-preserving transform of the
    specification.  For every history given by its (role, content) pairs the
    prompt built by the code is the contributions of the messages in history
    order followed by the cue [Assistant:]; and the history
    [system S, user U1, assistant A1] gives exactly
    [System: S\n\nUser: U1\nAssistant: A1\n\nAssistant:]. *)
Theorem format_prompt_role_keyed :
  (∀ h : list (string * string),
      format_prompt (map (λ rc, message rc.1 rc.2) h) = ret (spec_prompt h)) ∧
  format_prompt
    [message "system" "S"; message "user" "U1"; message "assistant" "A1"]
  = ret ("System: S" +:+ nl +:+ nl +:+ "User: U1" +:+ nl +:+
         "Assistant: A1" +:+ nl +:+ nl +:+ "Assistant:").
Proof.
  split.
  - apply format_prompt_spec.
  - vm_compute. reflexivity.
Qed.

Lemma spec_contribution_unknown role content :
  known_role role = false → spec_contribution role content = "".
Proof.
  unfold known_role, spec_contribution. intros Hk.
  repeat case_match; simpl in Hk; congruence.
Qed.

Lemma format_prompt_skip_unknown
    (before after : list Message) (msg : Message) (role content : string) :
  msg !! "role" = Some role →
  msg !! "content" = Some content →
  known_role role = false →
  format_prompt (before ++ msg :: after) = format_prompt (before ++ after).
Proof.
  intros Hr Hc Hk. unfold format_prompt.
  rewrite !format_loop_app. destruct (format_loop "" before) as [e|p]; [done|].
  simpl. rewrite (format_step_spec _ _ _ _ Hr Hc).
  by rewrite spec_contribution_unknown, append_nil_r.
Qed.

(** The prompt of the specification is made of the messages with a
    recognised role. *)
Lemma spec_prompt_filter_known (h : list (string * string)) :
  spec_prompt h = spec_prompt (filter (λ rc, known_role rc.1 = true) h).
Proof.
  unfold spec_prompt. f_equal.
  induction h as [|[role content] h IH]; [done|].
  rewrite map_cons, concat_empty_cons, IH, filter_cons.
  cbn [fst snd]. destruct (decide (known_role role = true)) as [Hk|Hk].
  - by rewrite map_cons, concat_empty_cons.
  - apply not_true_is_false in Hk.
    by rewrite spec_contribution_unknown.
Qed.

(** C7: a message whose role is none of [system], [user], [assistant] is
    dropped and the others are formatted in their order.  For a history of
    role and content pairs with such a message anywhere in it, whatever
    other entries that message holds, the prompt is exactly the
    contributions, in history order and with their repetitions, of the
    messages around it whose role is recognised, followed by the cue; and
    in any history at all, taking that message out does not change the
    prompt. *)
Theorem format_prompt_drops_unknown_role
    (before after : list (string * string)) (msg : Message)
    (role content : string) :
  msg !! "role" = Some role →
  msg !! "content" = Some content →
  role ≠ "system" → role ≠ "user" → role ≠ "assistant" →
  format_prompt
    (map (λ rc, message rc.1 rc.2) before ++
     msg :: map (λ rc, message rc.1 rc.2) after)
  = ret (spec_prompt
           (filter (λ rc, known_role rc.1 = true) (before ++ after))) ∧
  (∀ l1 l2 : list Message,
      format_prompt (l1 ++ msg :: l2) = format_prompt (l1 ++ l2)).
Proof.
  intros Hr Hc Hs Hu Ha.
  assert (known_role role = false) as Hk.
  { unfold known_role.
    apply String.eqb_neq in Hs, Hu, Ha. by rewrite Hs, Hu, Ha. }
  split.
  - rewrite (format_prompt_skip_unknown _ _ _ _ _ Hr Hc Hk).
    rewrite <-map_app, format_prompt_spec.
    by rewrite <-spec_prompt_filter_known.
  - intros l1 l2. by apply (format_prompt_skip_unknown _ _ _ role content).
Qed.

Lemma format_prompt_drops_unknown_role_witness :
  format_prompt
    (map (λ rc, message rc.1 rc.2) [("system", "S"); ("tool", "1")] ++
     <["name" := "calc"]> (message "tool" "42") ::
     map (λ rc, message rc.1 rc.2) [("user", "U"); ("user", "U")])
  = ret ("System: S" +:+ nl +:+ nl +:+ "User: U" +:+ nl +:+
         "User: U" +:+ nl +:+ "Assistant:").
Proof.
  apply (format_prompt_drops_unknown_role
           [("system", "S"); ("tool", "1")] [("user", "U"); ("user", "U")]
           (<["name" := "calc"]> (message "tool" "42")) "tool" "42");
    by vm_compute.
Defined.

(** On a whole history the prompt is that of the messages with a recognised
    role, in their order and with their repetitions. *)
Corollary format_prompt_filter_known (h : list (string * string)) :
  format_prompt (map (λ rc, message rc.1 rc.2) h) =
  format_prompt
    (map (λ rc, message rc.1 rc.2) (filter (λ rc, known_role rc.1 = true) h)).
Proof.
  rewrite !format_prompt_spec. f_equal. apply spec_prompt_filter_known.
Qed.

(** ** The store and the model handle *)

Section Properties.

Context `{engine : Engine}.

Implicit Types (st : State) (history : ref) (user_prompt : string).

Lemma deref_lookup st l (v : list Message) :
  store st !! l = Some v → deref st l = v.
Proof. intros Hl. unfold deref. by rewrite Hl. Qed.

(** A new list object never takes the place of a live one. *)
Lemma new_list_fresh st l (v : list Message) :
  store st !! l = Some v → fresh (dom (store st)) ≠ l.
Proof.
  intros Hl Heq. apply (is_fresh (dom (store st))).
  rewrite Heq. apply elem_of_dom. by exists v.
Qed.

(** ** get_primer_response *)

Lemma get_primer_response_None user_prompt history model_name st :
  llama_model st = None →
  get_primer_response user_prompt history model_name st =
  ((not_initialized, history), print not_initialized st).
Proof. intros Hm. unfold get_primer_response. by rewrite Hm. Qed.

Lemma working_copy_deref user_prompt history st :
  deref (working_copy user_prompt history st).2
        (working_copy user_prompt history st).1
  = deref st history ++ [message "user" user_prompt].
Proof. unfold working_copy, new_list, deref. simpl. by simplify_map_eq. Qed.

(** The successful path, as an equation. *)
Lemma get_primer_response_Some_ok
    user_prompt history model_name st model prompt response model' text :
  llama_model st = Some model →
  format_prompt (deref st history ++ [message "user" user_prompt])
    = ret prompt →
  generate model prompt = (ret response, model') →
  extract_text response = ret text →
  get_primer_response user_prompt history model_name st =
  let '(l, st1) := working_copy user_prompt history st in
  ((text, l),
   list_append l (message "assistant" text)
               (set_llama_model (Some model') st1)).
Proof.
  intros Hm Hp Hg Hx. unfold get_primer_response. rewrite Hm.
  pose proof (working_copy_deref user_prompt history st) as Hd.
  destruct (working_copy _ _ st) as [l st1]. simpl in Hd.
  rewrite Hd, Hp. simpl. rewrite Hg. simpl. by rewrite Hx.
Qed.

(** The failing paths, as an equation: the handler runs in the state the
    block reached. *)
Lemma get_primer_response_Some_raises
    user_prompt history model_name st model e model' :
  llama_model st = Some model →
  generation_raises
    model (deref st history ++ [message "user" user_prompt]) e model' →
  get_primer_response user_prompt history model_name st =
  on_error history e
    (set_llama_model (Some model') (working_copy user_prompt history st).2).
Proof.
  intros Hm Hr. unfold get_primer_response. rewrite Hm.
  pose proof (working_copy_deref user_prompt history st) as Hd.
  destruct (working_copy _ _ st) as [l st1] eqn:Hn. simpl in Hd. rewrite Hd.
  assert (llama_model st1 = Some model) as Hm1.
  { unfold working_copy, new_list in Hn. by simplify_eq. }
  destruct Hr as [e Hp|prompt e model' Hp Hg|prompt response e model' Hp Hg Hx];
    rewrite Hp; simpl.
  - do 2 f_equal. destruct st1; simpl in *; by subst.
  - by rewrite Hg.
  - rewrite Hg. simpl. by rewrite Hx.
Qed.

(** What the handler leaves behind: its reply, the caller's reference,
    and the store it was given. *)
Lemma on_error_result history e st :
  (on_error history e st).1 =
    ("Confused: Error generating response: " +:+ str_exn e, history) ∧
  store (on_error history e st).2 = store st ∧
  llama_model (on_error history e st).2 = llama_model st.
Proof. done. Qed.

(** The store after the working copy is made: one more object, the others
    as they were. *)
Lemma working_copy_store user_prompt history st :
  store (working_copy user_prompt history st).2 =
  <[(working_copy user_prompt history st).1 :=
      deref st history ++ [message "user" user_prompt]]> (store st).
Proof. done. Qed.

Lemma working_copy_fresh user_prompt history st l (v : list Message) :
  store st !! l = Some v → (working_copy user_prompt history st).1 ≠ l.
Proof. apply new_list_fresh. Qed.

(** Everything the successful path establishes. *)
Lemma get_primer_response_ok
    user_prompt history model_name st model hist prompt response model' text :
  llama_model st = Some model →
  store st !! history = Some hist →
  format_prompt (hist ++ [message "user" user_prompt]) = ret prompt →
  generate model prompt = (ret response, model') →
  extract_text response = ret text →
  let r := get_primer_response user_prompt history model_name st in
  r.1.1 = text ∧
  deref r.2 r.1.2 =
    hist ++ [message "user" user_prompt; message "assistant" text] ∧
  r.1.2 ≠ history ∧
  (∀ l v, store st !! l = Some v → store r.2 !! l = Some v).
Proof.
  intros Hm Hh Hp Hg Hx r. subst r.
  rewrite <-(deref_lookup _ _ _ Hh) in Hp.
  rewrite (get_primer_response_Some_ok _ _ _ _ _ _ _ _ _ Hm Hp Hg Hx).
  pose proof (working_copy_deref user_prompt history st) as Hd.
  pose proof (working_copy_store user_prompt history st) as Hs.
  pose proof (working_copy_fresh user_prompt history st) as Hf.
  destruct (working_copy user_prompt history st) as [l st1].
  simpl in *. rewrite (deref_lookup _ _ _ Hh) in *.
  split_and!.
  - done.
  - unfold deref at 1. simpl. rewrite lookup_insert_eq. simpl.
    unfold deref. simpl. fold (deref st1 l). rewrite Hd.
    by rewrite <-app_assoc.
  - by apply (Hf _ hist).
  - intros l' v Hl'. rewrite lookup_insert_ne by by eapply Hf.
    rewrite Hs, lookup_insert_ne by by eapply Hf. done.
Qed.

(** C1: with a model loaded and a generation that succeeds, the history
    returned has [len(H) + 2] entries: those of [H], then the user message,
    then the assistant message with the reply.  It is a new list object:
    the caller's list [H], like every other list object, is as it was. *)
Theorem respond_success_extends_history
    user_prompt history model_name st model hist prompt response model' text :
  llama_model st = Some model →
  store st !! history = Some hist →
  format_prompt (hist ++ [message "user" user_prompt]) = ret prompt →
  generate model prompt = (ret response, model') →
  extract_text response = ret text →
  let r := get_primer_response user_prompt history model_name st in
  r.1.1 = text ∧
  length (deref r.2 r.1.2) = length hist + 2 ∧
  take (length hist) (deref r.2 r.1.2) = hist ∧
  drop (length hist) (deref r.2 r.1.2) =
    [message "user" user_prompt; message "assistant" text] ∧
  r.1.2 ≠ history ∧
  deref r.2 history = hist ∧
  (∀ l v, store st !! l = Some v → store r.2 !! l = Some v).
Proof.
  intros Hm Hh Hp Hg Hx r.
  destruct (get_primer_response_ok
              user_prompt history model_name st _ _ _ _ _ _ Hm Hh Hp Hg Hx)
    as (Ht & Hd & Hne & Hst).
  fold r in Ht, Hd, Hne, Hst. rewrite Hd.
  split_and!; try done.
  - rewrite length_app. simpl. lia.
  - by rewrite take_app_length.
  - by rewrite drop_app_length.
  - apply deref_lookup. by apply Hst.
Qed.

(** C3: when the [try] block raises, in the generation call or around it,
    nothing propagates: the function returns the reply
    [Confused: Error generating response: ] followed by the text of the
    exception, and the caller's own list, with the content it had. *)
Theorem respond_failure_returns_original
    user_prompt history model_name st model hist e model' :
  llama_model st = Some model →
  store st !! history = Some hist →
  generation_raises model (hist ++ [message "user" user_prompt]) e model' →
  let r := get_primer_response user_prompt history model_name st in
  r.1.1 = "Confused: Error generating response: " +:+ str_exn e ∧
  startswith "Confused: Error generating response:" r.1.1 ∧
  r.1.2 = history ∧
  deref r.2 history = hist ∧
  (∀ l v, store st !! l = Some v → store r.2 !! l = Some v).
Proof.
  intros Hm Hh Hr r. subst r.
  rewrite <-(deref_lookup _ _ _ Hh) in Hr.
  rewrite (get_primer_response_Some_raises _ _ _ _ _ _ _ Hm Hr).
  pose proof (working_copy_store user_prompt history st) as Hs.
  pose proof (working_copy_fresh user_prompt history st) as Hf.
  destruct (working_copy user_prompt history st) as [l st1]. simpl in *.
  assert (∀ l' v, store st !! l' = Some v → store st1 !! l' = Some v) as Hst.
  { intros l' v Hl'. rewrite Hs, lookup_insert_ne by by eapply Hf. done. }
  split_and!; try done.
  - by exists (" " +:+ str_exn e).
  - apply deref_lookup. simpl. by apply Hst.
Qed.

(** C4: with no model loaded the function does not raise; it returns a
    reply that starts with [Confused:] and the caller's own list, and no
    list object is changed. *)
Theorem respond_without_model user_prompt history model_name st :
  llama_model st = None →
  let r := get_primer_response user_prompt history model_name st in
  r.1.1 = not_initialized ∧
  startswith "Confused:" r.1.1 ∧
  r.1.2 = history ∧
  store r.2 = store st ∧
  deref r.2 history = deref st history.
Proof.
  intros Hm r. subst r. rewrite get_primer_response_None by done.
  split_and!; try done.
  by exists (" Model not initialized. Please call initialize_model() first.").
Qed.

(** C10: [model_name] is never read: two calls that differ in it only give
    the same reply, the same history and the same state. *)
Theorem respond_ignores_model_name
    user_prompt history (model_name1 model_name2 : option string) st :
  get_primer_response user_prompt history model_name1 st =
  get_primer_response user_prompt history model_name2 st.
Proof. reflexivity. Qed.

(** ** initialize_model *)

Lemma initialize_model_Some model_path n_ctx n_gpu_layers verbose st model :
  llama_model st = Some model →
  initialize_model model_path n_ctx n_gpu_layers verbose st =
  (ret tt, print "Model already initialized." st).
Proof. intros Hm. unfold initialize_model. by rewrite Hm. Qed.

(** A call that returns leaves a model loaded. *)
Lemma initialize_model_returns model_path n_ctx n_gpu_layers verbose st :
  (initialize_model model_path n_ctx n_gpu_layers verbose st).1 = ret tt →
  is_Some
    (llama_model (initialize_model model_path n_ctx n_gpu_layers verbose st).2).
Proof.
  unfold initialize_model. destruct (llama_model st) as [model|] eqn:Hm.
  - intros _. simpl. rewrite Hm. by eexists.
  - destruct (Llama_new _ _ _ _) as [e|model]; simpl; [done|]. by eexists.
Qed.

(** C5: after a call of [initialize_model] that returned, a second call,
    whatever its arguments, returns without an error, says that the model
    is already initialized and leaves the handle of the first call in
    place. *)
Theorem initialize_model_twice
    path1 n_ctx1 n_gpu_layers1 verbose1
    path2 n_ctx2 n_gpu_layers2 verbose2 st :
  let r1 := initialize_model path1 n_ctx1 n_gpu_layers1 verbose1 st in
  r1.1 = ret tt →
  let r2 := initialize_model path2 n_ctx2 n_gpu_layers2 verbose2 r1.2 in
  r2.1 = ret tt ∧
  is_Some (llama_model r1.2) ∧
  llama_model r2.2 = llama_model r1.2 ∧
  store r2.2 = store r1.2 ∧
  stdout r2.2 = stdout r1.2 ++ ["Model already initialized."].
Proof.
  intros r1 Hr1 r2.
  destruct (initialize_model_returns _ _ _ _ _ Hr1) as [model Hm].
  fold r1 in Hm. subst r2.
  rewrite (initialize_model_Some _ _ _ _ _ _ Hm). by rewrite Hm.
Qed.

(** C6: when the constructor of the engine raises, [initialize_model]
    raises the same exception and the global handle stays [None], as it
    was before the call; no list object is touched. *)
Theorem initialize_model_load_failure
    model_path n_ctx n_gpu_layers verbose st e :
  llama_model st = None →
  Llama_new model_path n_ctx n_gpu_layers verbose = raise e →
  let r := initialize_model model_path n_ctx n_gpu_layers verbose st in
  r.1 = raise e ∧
  llama_model r.2 = None ∧
  llama_model r.2 = llama_model st ∧
  store r.2 = store st ∧
  stdout r.2 = stdout st ++ ["Loading llama.cpp model from: " +:+ model_path;
                             "Error loading model: " +:+ str_exn e].
Proof.
  intros Hm Hn r. subst r. unfold initialize_model. rewrite Hm, Hn. simpl.
  rewrite Hm. by rewrite <-app_assoc.
Qed.

(** ** cleanup_model *)

(** C8: [cleanup_model] leaves no model loaded and touches no list object;
    on a state without a model it changes nothing.  A call of
    [get_primer_response] after it returns what the call returns when no
    model was ever loaded: the not-initialized reply and the caller's own
    list, no list object being changed. *)
Theorem cleanup_then_respond user_prompt history model_name st :
  llama_model (cleanup_model st) = None ∧
  store (cleanup_model st) = store st ∧
  cleanup_model (set_llama_model None st) = set_llama_model None st ∧
  let r := get_primer_response user_prompt history model_name
                               (cleanup_model st) in
  let r0 := get_primer_response user_prompt history model_name
                                (set_llama_model None st) in
  r.1 = r0.1 ∧
  r.1 = (not_initialized, history) ∧
  store r.2 = store r0.2 ∧
  store r.2 = store st ∧
  llama_model r.2 = None ∧
  stdout r.2 = stdout (cleanup_model st) ++ [not_initialized].
Proof.
  assert (llama_model (cleanup_model st) = None) as Hc.
  { unfold cleanup_model. by destruct (llama_model st) eqn:Hm. }
  assert (store (cleanup_model st) = store st) as Hs.
  { unfold cleanup_model. by destruct (llama_model st). }
  split_and!; try done.
  rewrite !get_primer_response_None by done. simpl.
  by rewrite Hc, Hs.
Qed.

End Properties.

(** ** The paths of get_primer_response on sample inputs *)

Lemma respond_success_extends_history_witness :
  llama_model (sample_state (stub_engine " hi ") (Some 0%nat)) = Some 0%nat ∧
  store (sample_state (stub_engine " hi ") (Some 0%nat)) !! 1%positive
    = Some sample_history ∧
  format_prompt (sample_history ++ [message "user" "U"]) = ret sample_prompt ∧
  generate (engine := stub_engine " hi ") 0%nat sample_prompt
    = (ret sample_response, 1%nat) ∧
  extract_text sample_response = ret "hi" ∧
  (get_primer_response (engine := stub_engine " hi ") "U" 1%positive None
     (sample_state (stub_engine " hi ") (Some 0%nat))).1.1 = "hi".
Proof.
  pose proof (respond_success_extends_history
                (engine := stub_engine " hi ") "U" 1%positive None
                (sample_state (stub_engine " hi ") (Some 0%nat))
                0%nat sample_history sample_prompt sample_response 1%nat "hi")
    as W.
  assert (format_prompt (sample_history ++ [message "user" "U"])
          = ret sample_prompt) as Hp by (vm_compute; reflexivity).
  assert (extract_text sample_response = ret "hi") as Hx
    by (vm_compute; reflexivity).
  split_and!;
    [reflexivity | reflexivity | exact Hp | reflexivity | exact Hx |].
  apply (W eq_refl eq_refl Hp eq_refl Hx).
Defined.

Lemma respond_failure_returns_original_witness :
  llama_model (sample_state broken_engine (Some 0%nat)) = Some 0%nat ∧
  store (sample_state broken_engine (Some 0%nat)) !! 1%positive
    = Some sample_history ∧
  generation_raises (engine := broken_engine) 0%nat
    (sample_history ++ [message "user" "U"])
    (EngineError "llama_decode returned 1") 1%nat ∧
  (get_primer_response (engine := broken_engine) "U" 1%positive None
     (sample_state broken_engine (Some 0%nat))).1 =
  ("Confused: Error generating response: llama_decode returned 1", 1%positive).
Proof.
  assert (generation_raises (engine := broken_engine) 0%nat
            (sample_history ++ [message "user" "U"])
            (EngineError "llama_decode returned 1") 1%nat) as Hr.
  { apply (raises_in_call (engine := broken_engine) _ _ sample_prompt);
      [vm_compute; reflexivity | reflexivity]. }
  split_and!; [reflexivity | reflexivity | exact Hr |].
  destruct (respond_failure_returns_original
              (engine := broken_engine) "U" 1%positive None
              (sample_state broken_engine (Some 0%nat))
              0%nat sample_history _ _ eq_refl eq_refl Hr)
    as (Hreply & _ & Hhist & _).
  apply injective_projections; simpl; assumption.
Defined.

Lemma respond_without_model_witness :
  llama_model (sample_state (stub_engine " hi ") None) = None ∧
  (get_primer_response (engine := stub_engine " hi ") "U" 1%positive None
     (sample_state (stub_engine " hi ") None)).1 =
  (not_initialized, 1%positive).
Proof.
  split; [reflexivity|].
  destruct (respond_without_model
              (engine := stub_engine " hi ") "U" 1%positive None
              (sample_state (stub_engine " hi ") None) eq_refl)
    as (Hreply & _ & Hhist & _).
  apply injective_projections; simpl; assumption.
Defined.

(** ** The paths of initialize_model on sample inputs *)

Lemma initialize_model_twice_witness :
  (initialize_model (engine := stub_engine " hi ") "primer.gguf" 2048 0 false
     (sample_state (stub_engine " hi ") None)).1 = ret tt ∧
  llama_model
    (initialize_model (engine := stub_engine " hi ") "other.gguf" 4096 8 true
       (initialize_model (engine := stub_engine " hi ") "primer.gguf" 2048 0
          false (sample_state (stub_engine " hi ") None)).2).2
  = Some 0%nat.
Proof.
  split; [reflexivity|].
  destruct (initialize_model_twice
              (engine := stub_engine " hi ")
              "primer.gguf" 2048 0 false "other.gguf" 4096 8 true
              (sample_state (stub_engine " hi ") None) eq_refl)
    as (_ & _ & Hm & _).
  rewrite Hm. reflexivity.
Defined.

Lemma initialize_model_load_failure_witness :
  llama_model (sample_state broken_engine None) = None ∧
  Llama_new (Engine := broken_engine) "" 2048 0 false
    = raise (EngineError "Failed to load model from file: ") ∧
  llama_model
    (initialize_model (engine := broken_engine) "" 2048 0 false
       (sample_state broken_engine None)).2 = None.
Proof.
  split_and!; [reflexivity | reflexivity |].
  apply (initialize_model_load_failure
           (engine := broken_engine) "" 2048 0 false
           (sample_state broken_engine None)
           (EngineError "Failed to load model from file: ")
           eq_refl eq_refl).
Defined.

(** ** The seed history *)

Lemma length_exchanges (qa : list (string * string)) :
  length (flat_map (λ p, exchange p.1 p.2) qa) = 2 * length qa.
Proof. induction qa as [|p qa IH]; simpl; lia. Qed.

Example length_INITIAL_MESSAGES_HISTORY : length INITIAL_MESSAGES_HISTORY = 13.
Proof. reflexivity. Qed.

(** C9, as stated, fails on its count: the seed history is not the system
    prompt followed by 5 exchanges, such a list has 11 entries and the seed
    has 13. *)
Lemma seed_has_not_five_exchanges : ¬ seed_has_exchanges 5.
Proof.
  intros (qa & Hlen & Heq). apply (f_equal length) in Heq.
  rewrite length_INITIAL_MESSAGES_HISTORY in Heq. simpl in Heq.
  rewrite length_exchanges, Hlen in Heq. lia.
Qed.

(** C9, amended: the seed history is the system prompt followed by 6 example
    exchanges, 13 messages.  With the stub engine whose generation is always
    [Neutral: test.], loading a model and then asking [What is gravity?] on
    the seed history returns exactly [Neutral: test.] and a history of
    13 + 2 messages; the seed list itself still has its 13. *)
Theorem seeded_end_to_end :
  seed_has_exchanges 6 ∧
  let st :=
    (initialize_model (engine := stub_engine "Neutral: test.")
       "primer.gguf" 2048 0 false imported).2 in
  let r :=
    get_primer_response (engine := stub_engine "Neutral: test.")
      "What is gravity?" INITIAL_MESSAGES_HISTORY_ref None st in
  r.1.1 = "Neutral: test." ∧
  length (deref r.2 r.1.2) = length INITIAL_MESSAGES_HISTORY + 2 ∧
  drop (length INITIAL_MESSAGES_HISTORY) (deref r.2 r.1.2) =
    [message "user" "What is gravity?"; message "assistant" "Neutral: test."] ∧
  deref r.2 INITIAL_MESSAGES_HISTORY_ref = INITIAL_MESSAGES_HISTORY.
Proof.
  split.
  - unfold seed_has_exchanges, INITIAL_MESSAGES_HISTORY, EXAMPLE_INTERACTIONS.
    eexists [(_, _); (_, _); (_, _); (_, _); (_, _); (_, _)].
    split; reflexivity.
  - intros st r.
    assert (Forall well_formed
              (INITIAL_MESSAGES_HISTORY ++ [message "user" "What is gravity?"]))
      as Hwf.
    { unfold INITIAL_MESSAGES_HISTORY, EXAMPLE_INTERACTIONS, SYSTEM_PROMPT.
      cbn [app].
      repeat (apply Forall_cons; split; [apply well_formed_message|]).
      by apply Forall_nil. }
    destruct (format_prompt_total _ Hwf) as [prompt Hp].
    destruct (get_primer_response_ok
                (engine := stub_engine "Neutral: test.")
                "What is gravity?" INITIAL_MESSAGES_HISTORY_ref None st
                0%nat INITIAL_MESSAGES_HISTORY prompt
                {[ "choices" := [ {[ "text" := "Neutral: test." ]} ] ]}
                1%nat "Neutral: test.")
      as (Ht & Hd & _ & Hst); [reflexivity | reflexivity | exact Hp
                              | reflexivity | vm_compute; reflexivity |].
    fold r in Ht, Hd, Hst. rewrite Hd.
    split_and!.
    + done.
    + by rewrite length_app.
    + by rewrite drop_app_length.
    + apply deref_lookup. by apply Hst.
Qed.

(** * Further properties *)

(** ** White space at the ends of a reply *)

Lemma space2_not_space1 a b : space2 a b = true → space1 a = false.
Proof.
  unfold space2, space1. cbv zeta. intros Hs.
  apply andb_true_iff in Hs as [Hn _]. apply Nat.eqb_eq in Hn. by rewrite Hn.
Qed.

Lemma space3_not_space1 a b c : space3 a b c = true → space1 a = false.
Proof.
  unfold space3, space1. cbv zeta. intros Hs.
  repeat (apply orb_true_iff in Hs as [Hs|Hs]);
    repeat (apply andb_true_iff in Hs as [Hs ?]);
    apply Nat.eqb_eq in Hs; by rewrite Hs.
Qed.

Lemma space3_not_space2 a b c : space3 a b c = true → space2 a b = false.
Proof.
  unfold space3, space2. cbv zeta. intros Hs.
  repeat (apply orb_true_iff in Hs as [Hs|Hs]);
    repeat (apply andb_true_iff in Hs as [Hs ?]);
    apply Nat.eqb_eq in Hs; by rewrite Hs.
Qed.

Lemma isspace_space_prefix c t :
  isspace c = true → space_prefix (c +:+ t) = Some t.
Proof.
  destruct c as [|a [|b [|c [|d c']]]]; cbn [isspace]; try done; intros Hs.
  - change (space_prefix (String a t) = Some t).
    cbn [space_prefix]. by rewrite Hs.
  - change (space_prefix (String a (String b t)) = Some t).
    cbn [space_prefix]. by rewrite (space2_not_space1 _ _ Hs), Hs.
  - change (space_prefix (String a (String b (String c t))) = Some t).
    cbn [space_prefix].
    by rewrite (space3_not_space1 _ _ _ Hs), (space3_not_space2 _ _ _ Hs), Hs.
Qed.

Lemma space_prefix_Some s rest :
  space_prefix s = Some rest → ∃ c, isspace c = true ∧ s = c +:+ rest.
Proof.
  destruct s as [|a s1]; simpl; [done|].
  destruct (space1 a) eqn:H1.
  { intros [= <-]. by exists (String a ""). }
  destruct s1 as [|b s2]; [done|].
  destruct (space2 a b) eqn:H2.
  { intros [= <-]. by exists (String a (String b "")). }
  destruct s2 as [|c s3]; [done|].
  destruct (space3 a b c) eqn:H3; [|done].
  intros [= <-]. by exists (String a (String b (String c ""))).
Qed.

Lemma lstrip_unfold s :
  lstrip s = match space_prefix s with
             | Some rest => lstrip rest
             | None => s
             end.
Proof.
  destruct s as [|a s1]; simpl; [done|].
  destruct (space1 a); [done|].
  destruct s1 as [|b s2]; [done|].
  destruct (space2 a b); [done|].
  destruct s2 as [|c s3]; [done|].
  by destruct (space3 a b c).
Qed.

Lemma isspace_nonempty c : isspace c = true → c ≠ "".
Proof. by destruct c. Qed.

Lemma length_append (s t : string) :
  String.length (s +:+ t) = String.length s + String.length t.
Proof.
  induction s as [|a s IH]; [done|]. rewrite append_cons. simpl.
  by rewrite IH.
Qed.

Lemma space_prefix_shorter s rest :
  space_prefix s = Some rest → String.length rest < String.length s.
Proof.
  intros Hs. destruct (space_prefix_Some _ _ Hs) as (c & Hc & ->).
  rewrite length_append. destruct c; [done|]. simpl. lia.
Qed.

Lemma lstrip_isspace c t : isspace c = true → lstrip (c +:+ t) = lstrip t.
Proof.
  intros Hc. by rewrite lstrip_unfold, (isspace_space_prefix _ _ Hc).
Qed.

Lemma string_length_ind (P : string → Prop) :
  (∀ s, (∀ t, String.length t < String.length s → P t) → P s) → ∀ s, P s.
Proof. intros HP. apply (induction_ltof1 string String.length P). exact HP. Qed.

(** What [lstrip] returns does not start with a white space character. *)
Lemma lstrip_no_space_prefix s : space_prefix (lstrip s) = None.
Proof.
  induction s as [s IH] using string_length_ind.
  rewrite lstrip_unfold. destruct (space_prefix s) as [rest|] eqn:Hs; [|done].
  apply IH. by apply space_prefix_shorter.
Qed.

(** White space only followed by white space only is white space only. *)
Lemma lstrip_append_empty s t :
  lstrip s = "" → lstrip t = "" → lstrip (s +:+ t) = "".
Proof.
  intros Hs Ht. induction s as [s IH] using string_length_ind.
  rewrite lstrip_unfold in Hs.
  destruct (space_prefix s) as [rest|] eqn:Hp.
  - destruct (space_prefix_Some _ _ Hp) as (c & Hc & ->).
    rewrite append_assoc, (lstrip_isspace _ _ Hc).
    apply IH; [by eapply space_prefix_shorter | done].
  - by subst s.
Qed.

(** [rstrip] cuts a part off the end, and that part is white space only. *)
Lemma rstrip_split s : ∃ w, s = rstrip s +:+ w ∧ lstrip w = "".
Proof.
  induction s as [|a s (w & IH & Hw)]; [by exists ""|].
  cbn [rstrip]. destruct (lstrip (String a s)) as [|b r] eqn:Hl.
  - by exists (String a s).
  - exists w. by rewrite append_cons, <-IH.
Qed.

(** No part at the end of what [rstrip] returns is white space only. *)
Lemma rstrip_no_space_suffix s p q :
  rstrip s = p +:+ q → q ≠ "" → lstrip q ≠ "".
Proof.
  revert p. induction s as [|a s IH]; intros p Hr Hq.
  - destruct p; [rewrite append_nil_l in Hr; by subst q | discriminate].
  - cbn [rstrip] in Hr. destruct (lstrip (String a s)) as [|b r] eqn:Hl.
    { destruct p; [rewrite append_nil_l in Hr; by subst q | discriminate]. }
    destruct p as [|a' p].
    + rewrite append_nil_l in Hr. subst q. intros Hall.
      destruct (rstrip_split s) as (w & Hs & Hw).
      pose proof (lstrip_append_empty _ _ Hall Hw) as Hsw.
      rewrite append_cons, <-Hs, Hl in Hsw. discriminate.
    + rewrite append_cons in Hr. injection Hr as _ Hr. by apply (IH p).
Qed.

Lemma isspace_lstrip c : isspace c = true → lstrip c = "".
Proof.
  intros Hc. rewrite <-(append_nil_r c), (lstrip_isspace _ _ Hc). done.
Qed.

(** A stripped text starts with no white space character. *)
Lemma strip_first s c rest : isspace c = true → strip s ≠ c +:+ rest.
Proof.
  intros Hc Hs. unfold strip in Hs.
  destruct (rstrip_split (lstrip s)) as (w & Hw & _).
  rewrite Hs, append_assoc in Hw.
  pose proof (lstrip_no_space_prefix s) as Hn.
  rewrite Hw, (isspace_space_prefix _ _ Hc) in Hn. discriminate.
Qed.

(** A stripped text ends with no white space character. *)
Lemma strip_last s c rest : isspace c = true → strip s ≠ rest +:+ c.
Proof.
  intros Hc Hs. unfold strip in Hs.
  apply (rstrip_no_space_suffix _ _ _ Hs); [by apply isspace_nonempty|].
  by apply isspace_lstrip.
Qed.

(** A text made of white space characters only is stripped to nothing. *)
Lemma strip_blank (ws : list string) :
  Forall (λ c, isspace c = true) ws → strip (String.concat "" ws) = "".
Proof.
  intros Hws. unfold strip.
  assert (lstrip (String.concat "" ws) = "") as ->; [|done].
  induction Hws as [|c ws Hc _ IH]; [done|].
  assert (String.concat "" (c :: ws) = c +:+ String.concat "" ws) as ->.
  { destruct ws; simpl; [by rewrite append_nil_r | done]. }
  by rewrite (lstrip_isspace _ _ Hc).
Qed.

(** [isspace] on the 29 white space characters and on some others. *)
Example isspace_white_space : Forall (λ c, isspace c = true) white_space.
Proof. by vm_compute; repeat constructor. Qed.

Example isspace_not_white_space :
  Forall (λ c, isspace c = false) not_white_space.
Proof. by vm_compute; repeat constructor. Qed.

Example length_white_space : length white_space = 29.
Proof. reflexivity. Qed.

(** [strip] on texts with white space outside ASCII, and with letters whose
    bytes end like those of a white space character. *)
Example strip_sample_padded : strip sample_padded = "hi".
Proof. vm_compute. reflexivity. Qed.

Example strip_sample_blank : strip (String.concat "" sample_blank) = "".
Proof. vm_compute. reflexivity. Qed.

Example strip_keeps_letters :
  strip (utf8 [195; 160] +:+ " la " +:+ utf8 [195; 133])
  = utf8 [195; 160] +:+ " la " +:+ utf8 [195; 133].
Proof. vm_compute. reflexivity. Qed.

(** ** What formatting reads and what it raises *)

Lemma format_loop_raises prompt (msgs : list Message) e :
  format_loop prompt msgs = raise e →
  e = KeyError "role" ∨ e = KeyError "content".
Proof.
  revert prompt. induction msgs as [|msg msgs IH]; intros prompt; [done|].
  simpl. unfold format_step, getitem.
  destruct (msg !! "role") as [role|]; simpl;
    [|intros [= <-]; by left].
  destruct (msg !! "content") as [content|]; simpl;
    [|intros [= <-]; by right].
  repeat case_match; simpl; apply IH.
Qed.

Lemma format_loop_ok_well_formed prompt (msgs : list Message) prompt' :
  format_loop prompt msgs = ret prompt' → Forall well_formed msgs.
Proof.
  revert prompt. induction msgs as [|msg msgs IH]; intros prompt; [done|].
  simpl. unfold format_step, getitem, well_formed.
  destruct (msg !! "role") as [role|] eqn:Hr; simpl; [|done].
  destruct (msg !! "content") as [content|] eqn:Hc; simpl; [|done].
  intros Hl. apply Forall_cons. split; [by split; eexists|].
  repeat case_match; simpl in Hl; by eapply IH.
Qed.

(** X1: the prompt can be built exactly when every message of the history
    carries a [role] and a [content] entry; when it cannot, the exception is
    the [KeyError] of one of these two keys. *)
Theorem format_prompt_succeeds_iff (msgs : list Message) :
  ((∃ prompt, format_prompt msgs = ret prompt) ↔ Forall well_formed msgs) ∧
  (∀ e, format_prompt msgs = raise e →
        e = KeyError "role" ∨ e = KeyError "content").
Proof.
  split; [split|].
  - intros [prompt Hp]. unfold format_prompt in Hp.
    destruct (format_loop "" msgs) as [e|prompt'] eqn:Hl; [done|].
    by eapply format_loop_ok_well_formed.
  - apply format_prompt_total.
  - intros e He. unfold format_prompt in He.
    destruct (format_loop "" msgs) as [e'|prompt'] eqn:Hl; [|done].
    simpl in He. injection He as <-. by eapply format_loop_raises.
Qed.

(** X2: the exception names the first missing key of the first message
    that is not well formed: after well-formed messages, a message without
    [role] raises [KeyError('role')], whatever else it holds and whatever
    follows; a message with a [role] and no [content] raises
    [KeyError('content')], even when its role is one the loop would drop. *)
Theorem format_prompt_first_missing_key
    (good rest : list Message) (bad : Message) :
  Forall well_formed good →
  ¬ well_formed bad →
  format_prompt (good ++ bad :: rest) =
  raise (KeyError (match bad !! "role" with
                   | Some _ => "content"
                   | None => "role"
                   end)).
Proof.
  intros Hgood Hbad. unfold format_prompt. rewrite format_loop_app.
  destruct (format_loop_total "" good Hgood) as [prompt Hp]. rewrite Hp.
  simpl. unfold format_step, getitem, well_formed in *.
  destruct (bad !! "role") as [role|]; simpl; [|done].
  destruct (bad !! "content") as [content|]; simpl; [|done].
  exfalso. apply Hbad. by split; eexists.
Qed.

Lemma format_prompt_first_missing_key_witness :
  Forall well_formed [message "system" "S"] ∧
  ¬ well_formed {[ "role" := "tool" ]} ∧
  format_prompt ([message "system" "S"] ++ {[ "role" := "tool" ]} :: [∅])
  = raise (KeyError "content").
Proof.
  assert (Forall well_formed [message "system" "S"]) as Hgood.
  { apply Forall_cons; split; [apply well_formed_message | by apply Forall_nil]. }
  assert (¬ well_formed ({[ "role" := "tool" ]} : Message)) as Hbad.
  { intros [_ [content Hc]]. vm_compute in Hc. discriminate. }
  split_and!; [exact Hgood | exact Hbad |].
  apply (format_prompt_first_missing_key _ [∅] _ Hgood Hbad).
Defined.

(** Two messages with the same [role] and [content] lookups. *)
Lemma format_step_agree prompt (m m' : Message) :
  m !! "role" = m' !! "role" → m !! "content" = m' !! "content" →
  format_step prompt m = format_step prompt m'.
Proof. intros Hr Hc. unfold format_step, getitem. by rewrite Hr, Hc. Qed.

(** X3: the prompt depends on the [role] and [content] entries only: two
    histories whose messages agree on these two entries, position by
    position, give the same prompt or the same exception, whatever other
    entries the messages carry. *)
Theorem format_prompt_reads_role_and_content (msgs msgs' : list Message) :
  Forall2 (λ m m' : Message,
             m !! "role" = m' !! "role" ∧ m !! "content" = m' !! "content")
          msgs msgs' →
  format_prompt msgs = format_prompt msgs'.
Proof.
  intros Hagree. unfold format_prompt. f_equal.
  generalize "".
  induction Hagree as [|m m' msgs msgs' [Hr Hc] _ IH]; intros prompt; [done|].
  simpl. rewrite (format_step_agree prompt m m' Hr Hc).
  destruct (format_step prompt m'); simpl; [done | apply IH].
Qed.

Lemma format_prompt_reads_role_and_content_witness :
  Forall2 (λ m m' : Message,
             m !! "role" = m' !! "role" ∧ m !! "content" = m' !! "content")
          [message "user" "U"] [<["name" := "Nell"]> (message "user" "U")] ∧
  format_prompt [message "user" "U"] =
  format_prompt [<["name" := "Nell"]> (message "user" "U")].
Proof.
  assert (Forall2 (λ m m' : Message,
             m !! "role" = m' !! "role" ∧ m !! "content" = m' !! "content")
          [message "user" "U"] [<["name" := "Nell"]> (message "user" "U")])
    as Hagree.
  { constructor; [split; by vm_compute | constructor]. }
  split; [exact Hagree|].
  apply (format_prompt_reads_role_and_content _ _ Hagree).
Defined.

(** X4: the prompt of a working copy ends with the newest user message and
    the cue: whatever the history, when the prompt of the history extended
    with the user message can be built, it ends with
    [User: {user_prompt}\nAssistant:]. *)
Theorem format_prompt_ends_with_user_turn
    (hist : list Message) (user_prompt prompt : string) :
  format_prompt (hist ++ [message "user" user_prompt]) = ret prompt →
  ∃ body, prompt = body +:+ "User: " +:+ user_prompt +:+ nl +:+ "Assistant:".
Proof.
  unfold format_prompt. rewrite format_loop_app.
  destruct (format_loop "" hist) as [e|body]; [done|]. simpl.
  rewrite (format_step_spec _ _ "user" user_prompt)
    by (apply message_role || apply message_content).
  simpl. intros [= <-]. exists body.
  unfold spec_contribution. simpl. by rewrite !append_assoc.
Qed.

Lemma format_prompt_ends_with_user_turn_witness :
  format_prompt (sample_history ++ [message "user" "U"]) = ret sample_prompt ∧
  ∃ body, sample_prompt = body +:+ "User: " +:+ "U" +:+ nl +:+ "Assistant:".
Proof.
  assert (format_prompt (sample_history ++ [message "user" "U"])
          = ret sample_prompt) as Hp by (vm_compute; reflexivity).
  split; [exact Hp|].
  apply (format_prompt_ends_with_user_turn sample_history "U" _ Hp).
Defined.

(** X5: contents are copied into the prompt as they are, so the prompt does
    not tell a real assistant turn from one written inside a user message:
    after any history, the exchange [user x, assistant y] and the single user
    message [x\nAssistant: y\n] give the same prompt. *)
Theorem format_prompt_forged_turn (hist : list Message) (x y : string) :
  format_prompt (hist ++ [message "user" x; message "assistant" y]) =
  format_prompt
    (hist ++ [message "user" (x +:+ nl +:+ "Assistant: " +:+ y +:+ nl)]).
Proof.
  unfold format_prompt. rewrite !format_loop_app.
  destruct (format_loop "" hist) as [e|body]; [done|]. simpl.
  rewrite (format_step_spec _ _ "user" x)
    by (apply message_role || apply message_content).
  simpl.
  rewrite (format_step_spec _ _ "assistant" y)
    by (apply message_role || apply message_content).
  rewrite (format_step_spec _ _ "user"
             (x +:+ nl +:+ "Assistant: " +:+ y +:+ nl))
    by (apply message_role || apply message_content).
  simpl. unfold spec_contribution. simpl.
  by rewrite !append_assoc.
Qed.

(** ** What is read from the output of the engine *)

(** X6: the text is taken from the first choice only: [extract_text]
    returns [text] exactly when the output has a non-empty list under
    [choices] whose first element has a [text] entry, [text] being that
    entry stripped; the other choices and the other entries are not read. *)
Theorem extract_text_reads_first_choice (response : Completion) text :
  extract_text response = ret text ↔
  ∃ (choice : gmap string string) others txt,
    response !! "choices" = Some (choice :: others) ∧
    choice !! "text" = Some txt ∧ text = strip txt.
Proof.
  unfold extract_text, getitem, getindex. split.
  - destruct (response !! "choices") as [[|choice others]|]; simpl; try done.
    destruct (choice !! "text") as [txt|] eqn:Ht; simpl; [|done].
    intros [= <-]. by exists choice, others, txt.
  - intros (choice & others & txt & -> & Ht & ->). simpl. by rewrite Ht.
Qed.

(** X7: a malformed output raises in exactly three ways: no [choices]
    entry ([KeyError('choices')]), an empty list of choices ([IndexError]),
    or a first choice without a [text] entry ([KeyError('text')]). *)
Theorem extract_text_raises (response : Completion) e :
  extract_text response = raise e ↔
  (response !! "choices" = None ∧ e = KeyError "choices") ∨
  (response !! "choices" = Some [] ∧ e = IndexError) ∨
  (∃ (choice : gmap string string) others,
      response !! "choices" = Some (choice :: others) ∧
      choice !! "text" = None ∧ e = KeyError "text").
Proof.
  unfold extract_text, getitem, getindex. split.
  - destruct (response !! "choices") as [[|choice others]|]; simpl.
    + intros [= <-]. right; by left.
    + destruct (choice !! "text") as [txt|] eqn:Ht; simpl; [done|].
      intros [= <-]. right; right. by exists choice, others.
    + intros [= <-]. by left.
  - intros [[-> ->]|[[-> ->]|(choice & others & -> & Ht & ->)]]; simpl;
      [done..|]. by rewrite Ht.
Qed.

(** ** get_primer_response on every path *)

Section MoreProperties.

Context `{engine : Engine}.

Implicit Types (st : State) (history : ref) (user_prompt : string).

(** The three paths of the function. *)
Lemma get_primer_response_cases user_prompt history model_name st :
  let r := get_primer_response user_prompt history model_name st in
  let wc := working_copy user_prompt history st in
  let msgs := deref st history ++ [message "user" user_prompt] in
  (llama_model st = None ∧
   r = ((not_initialized, history), print not_initialized st)) ∨
  (∃ model e model',
      llama_model st = Some model ∧
      generation_raises model msgs e model' ∧
      r = on_error history e (set_llama_model (Some model') wc.2)) ∨
  (∃ model prompt response model' text,
      llama_model st = Some model ∧
      format_prompt msgs = ret prompt ∧
      generate model prompt = (ret response, model') ∧
      extract_text response = ret text ∧
      r = ((text, wc.1),
           list_append wc.1 (message "assistant" text)
                       (set_llama_model (Some model') wc.2))).
Proof.
  intros r wc msgs. subst r.
  destruct (llama_model st) as [model|] eqn:Hm.
  2: { left. split; [done|]. by apply get_primer_response_None. }
  right.
  destruct (format_prompt msgs) as [e|prompt] eqn:Hp.
  { left. exists model, e, model. split_and!; [done|by apply raises_in_format|].
    eapply get_primer_response_Some_raises; [done|by apply raises_in_format]. }
  destruct (generate model prompt) as [[e|response] model'] eqn:Hg.
  { left. exists model, e, model'.
    split_and!; [done|by eapply raises_in_call|].
    eapply get_primer_response_Some_raises; [done|by eapply raises_in_call]. }
  destruct (extract_text response) as [e|text] eqn:Hx.
  { left. exists model, e, model'.
    split_and!; [done|by eapply raises_in_extract|].
    eapply get_primer_response_Some_raises; [done|by eapply raises_in_extract]. }
  right. exists model, prompt, response, model', text.
  split_and!; try done.
  rewrite (get_primer_response_Some_ok _ _ _ _ _ _ _ _ _ Hm Hp Hg Hx).
  subst wc. by destruct (working_copy user_prompt history st).
Qed.

(** The working copy never takes the reference of a list of the store. *)
Lemma working_copy_not_in_dom user_prompt history st :
  (working_copy user_prompt history st).1 ∉ dom (store st).
Proof. apply is_fresh. Qed.

Lemma store_after_working_copy user_prompt history st l (v : list Message) :
  store st !! l = Some v →
  store (working_copy user_prompt history st).2 !! l = Some v.
Proof.
  intros Hl. rewrite working_copy_store, lookup_insert_ne; [done|].
  exact (working_copy_fresh user_prompt history st l v Hl).
Qed.

Lemma deref_list_append st l (x : Message) :
  deref (list_append l x st) l = deref st l ++ [x].
Proof. unfold deref at 1. simpl. by rewrite lookup_insert_eq. Qed.

Lemma deref_set_llama_model (v : option Llama) st l :
  deref (set_llama_model v st) l = deref st l.
Proof. done. Qed.

(** Every list object is kept, on every path. *)
Lemma get_primer_response_frame
    user_prompt history model_name st l (v : list Message) :
  store st !! l = Some v →
  store (get_primer_response user_prompt history model_name st).2 !! l
  = Some v.
Proof.
  intros Hl.
  destruct (get_primer_response_cases user_prompt history model_name st)
    as [[_ ->]|[(model & e & model' & _ & _ & ->)
               |(model & prompt & response & model' & text & _ & _ & _ & _ & ->)]].
  - done.
  - simpl. by apply store_after_working_copy.
  - simpl. rewrite lookup_insert_ne
      by exact (working_copy_fresh user_prompt history st l v Hl).
    by apply store_after_working_copy.
Qed.

(** X8: whatever the arguments, the model and its output, a call changes
    no list object that exists when it is made: the caller's history and
    every other list keep their content. *)
Theorem respond_changes_no_list
    user_prompt history model_name st l (v : list Message) :
  store st !! l = Some v →
  store (get_primer_response user_prompt history model_name st).2 !! l
  = Some v.
Proof. apply get_primer_response_frame. Qed.

(** Whether a model is loaded is not changed by a call. *)
Lemma get_primer_response_loaded user_prompt history model_name st :
  is_Some (llama_model (get_primer_response user_prompt history model_name st).2)
  ↔ is_Some (llama_model st).
Proof.
  destruct (get_primer_response_cases user_prompt history model_name st)
    as [[Hm ->]|[(model & e & model' & Hm & _ & ->)
               |(model & prompt & response & model' & text & Hm & _ & _ & _ & ->)]];
    simpl; [reflexivity|..]; rewrite Hm; split; intros _; by eexists.
Qed.

(** X9: a call neither loads nor releases the model: a model is loaded
    after the call exactly when one was loaded before it. *)
Theorem respond_keeps_model_loaded user_prompt history model_name st :
  is_Some (llama_model (get_primer_response user_prompt history model_name st).2)
  ↔ is_Some (llama_model st).
Proof. apply get_primer_response_loaded. Qed.

(** The two outcomes of a call, without reference to the path. *)
Lemma get_primer_response_outcome user_prompt history model_name st :
  let r := get_primer_response user_prompt history model_name st in
  (r.1.2 = history ∧ startswith "Confused:" r.1.1 ∧
   stdout r.2 = stdout st ++ [r.1.1]) ∨
  ((r.1.2 ∉ dom (store st)) ∧
   deref r.2 r.1.2 =
     deref st history ++
     [message "user" user_prompt; message "assistant" r.1.1] ∧
   stdout r.2 = stdout st).
Proof.
  intros r. subst r.
  destruct (get_primer_response_cases user_prompt history model_name st)
    as [[_ ->]|[(model & e & model' & _ & _ & ->)
               |(model & prompt & response & model' & text & _ & _ & _ & _ & ->)]].
  - left. split_and!; [done| |done].
    by exists (" Model not initialized. Please call initialize_model() first.").
  - left. split_and!; [done| |done].
    by exists (" Error generating response: " +:+ str_exn e).
  - right. cbn [fst snd]. split_and!.
    + exact (working_copy_not_in_dom user_prompt history st).
    + rewrite deref_list_append, deref_set_llama_model, working_copy_deref.
      by rewrite <-app_assoc.
    + done.
Qed.

(** X10: every call ends in one of two ways.  Either it returns the
    caller's own reference with a reply that starts with [Confused:], and
    prints that reply as its only line; or it returns a reference that no
    list of the store had, whose list is the history followed by the user
    message and by the assistant message holding the reply, and prints
    nothing. *)
Theorem respond_outcome user_prompt history model_name st :
  let r := get_primer_response user_prompt history model_name st in
  (r.1.2 = history ∧ startswith "Confused:" r.1.1 ∧
   stdout r.2 = stdout st ++ [r.1.1]) ∨
  ((r.1.2 ∉ dom (store st)) ∧
   deref r.2 r.1.2 =
     deref st history ++
     [message "user" user_prompt; message "assistant" r.1.1] ∧
   stdout r.2 = stdout st).
Proof. apply get_primer_response_outcome. Qed.

End MoreProperties.

(** ** Replies, malformed histories and successive turns *)

Lemma extract_text_strip (response : Completion) text :
  extract_text response = ret text → ∃ txt, text = strip txt.
Proof.
  unfold extract_text, getitem, getindex.
  destruct (response !! "choices") as [[|choice others]|]; simpl; try done.
  destruct (choice !! "text") as [txt|]; simpl; [|done].
  intros [= <-]. by exists txt.
Qed.

Lemma format_prompt_raises (msgs : list Message) e :
  format_prompt msgs = raise e →
  e = KeyError "role" ∨ e = KeyError "content".
Proof.
  unfold format_prompt.
  destruct (format_loop "" msgs) as [e'|prompt'] eqn:Hl; [|done].
  simpl. intros [= <-]. by eapply format_loop_raises.
Qed.

Section Turns.

Context `{engine : Engine}.

Implicit Types (st : State) (history : ref) (user_prompt : string).

(** X11: a reply of a successful call (one that returns another reference
    than the caller's) has no white space at either end: it neither starts
    nor ends with a white space character of [str.isspace], of whatever
    number of bytes. *)
Theorem respond_reply_is_stripped user_prompt history model_name st :
  let r := get_primer_response user_prompt history model_name st in
  r.1.2 ≠ history →
  ∀ c rest, isspace c = true → r.1.1 ≠ c +:+ rest ∧ r.1.1 ≠ rest +:+ c.
Proof.
  intros r Hne c rest Hc. subst r.
  destruct (get_primer_response_cases user_prompt history model_name st)
    as [[_ Hr]|[(model & e & model' & _ & _ & Hr)
               |(model & prompt & response & model' & text & _ & _ & _ & Hx & Hr)]];
    rewrite Hr in *; try done.
  destruct (extract_text_strip _ _ Hx) as [txt ->]. cbn [fst snd].
  split; [by apply strip_first | by apply strip_last].
Qed.

(** X12: a history with a message that lacks [role] or [content] makes the
    turn fail before the model is called: the reply is the error reply for
    the [KeyError] of that key, the caller's reference is returned, and the
    model object is in the state it had. *)
Theorem respond_malformed_history
    user_prompt history model_name st model e :
  llama_model st = Some model →
  format_prompt (deref st history ++ [message "user" user_prompt]) = raise e →
  let r := get_primer_response user_prompt history model_name st in
  (e = KeyError "role" ∨ e = KeyError "content") ∧
  r.1 = ("Confused: Error generating response: " +:+ str_exn e, history) ∧
  llama_model r.2 = Some model.
Proof.
  intros Hm Hp r. subst r. split; [by eapply format_prompt_raises|].
  rewrite (get_primer_response_Some_raises _ _ _ _ model e model Hm);
    [done|by apply raises_in_format].
Qed.

(** X13: a generation made of white space characters only, of whatever
    number of bytes, is not an error: the call succeeds with the empty
    reply, and the history returned ends with an assistant message whose
    content is empty. *)
Theorem respond_blank_generation
    user_prompt history model_name st model prompt
    (response : Completion) model' (choice : gmap string string) others
    (ws : list string) :
  llama_model st = Some model →
  format_prompt (deref st history ++ [message "user" user_prompt])
    = ret prompt →
  generate model prompt = (ret response, model') →
  response !! "choices" = Some (choice :: others) →
  choice !! "text" = Some (String.concat "" ws) →
  Forall (λ c, isspace c = true) ws →
  let r := get_primer_response user_prompt history model_name st in
  r.1.1 = "" ∧
  (r.1.2 ∉ dom (store st)) ∧
  deref r.2 r.1.2 =
    deref st history ++ [message "user" user_prompt; message "assistant" ""].
Proof.
  intros Hm Hp Hg Hc Ht Hblank r. subst r.
  assert (extract_text response = ret "") as Hx.
  { unfold extract_text, getitem, getindex. rewrite Hc. simpl. rewrite Ht.
    simpl. by rewrite (strip_blank _ Hblank). }
  rewrite (get_primer_response_Some_ok _ _ _ _ _ _ _ _ _ Hm Hp Hg Hx).
  pose proof (working_copy_deref user_prompt history st) as Hd.
  pose proof (working_copy_not_in_dom user_prompt history st) as Hf.
  destruct (working_copy user_prompt history st) as [l st1].
  cbn [fst snd] in *. split_and!; [done..|].
  rewrite deref_list_append, deref_set_llama_model, Hd.
  by rewrite <-app_assoc.
Qed.

(** X14: after [cleanup_model] the next [initialize_model] loads again:
    when the constructor returns a model, the call returns, that model is
    the loaded one, whatever was loaded before the cleanup, and no list
    object is touched. *)
Theorem initialize_model_after_cleanup
    model_path n_ctx n_gpu_layers verbose st model :
  Llama_new model_path n_ctx n_gpu_layers verbose = ret model →
  let r := initialize_model model_path n_ctx n_gpu_layers verbose
                            (cleanup_model st) in
  r.1 = ret tt ∧ llama_model r.2 = Some model ∧ store r.2 = store st.
Proof.
  intros Hn r. subst r. unfold initialize_model.
  assert (llama_model (cleanup_model st) = None) as Hc.
  { unfold cleanup_model. by destruct (llama_model st) eqn:Hm. }
  assert (store (cleanup_model st) = store st) as Hs.
  { unfold cleanup_model. by destruct (llama_model st). }
  rewrite Hc, Hn. simpl. by rewrite Hs.
Qed.

Lemma deref_nonempty_lookup st l (v : list Message) :
  deref st l = v → v ≠ [] → store st !! l = Some v.
Proof.
  unfold deref. destruct (store st !! l); simpl; intros <-; done.
Qed.

(** X15: two successful turns in a row, the second on the history that the
    first returned, give the caller's history followed by the two exchanges
    in order.  The list returned by the first turn is not changed by the
    second, and the caller's first list is changed by neither. *)
Theorem respond_two_turns
    user_prompt1 user_prompt2 history model_name1 model_name2 st hist :
  store st !! history = Some hist →
  let r1 := get_primer_response user_prompt1 history model_name1 st in
  let r2 := get_primer_response user_prompt2 r1.1.2 model_name2 r1.2 in
  r1.1.2 ≠ history →
  r2.1.2 ≠ r1.1.2 →
  deref r2.2 r2.1.2 =
    hist ++ [message "user" user_prompt1; message "assistant" r1.1.1;
             message "user" user_prompt2; message "assistant" r2.1.1] ∧
  deref r2.2 r1.1.2 =
    hist ++ [message "user" user_prompt1; message "assistant" r1.1.1] ∧
  deref r2.2 history = hist.
Proof.
  intros Hh r1 r2 Hne1 Hne2.
  destruct (get_primer_response_outcome user_prompt1 history model_name1 st)
    as [[Heq _]|(_ & Hd1 & _)]; [done|].
  fold r1 in Hd1. rewrite (deref_lookup _ _ _ Hh) in Hd1.
  destruct (get_primer_response_outcome
              user_prompt2 r1.1.2 model_name2 r1.2)
    as [[Heq _]|(_ & Hd2 & _)]; [done|].
  fold r2 in Hd2. rewrite Hd1 in Hd2.
  split_and!.
  - rewrite Hd2. by rewrite <-app_assoc.
  - apply deref_lookup. apply get_primer_response_frame.
    apply deref_nonempty_lookup; [done|]. by destruct hist.
  - apply deref_lookup. by do 2 apply get_primer_response_frame.
Qed.

End Turns.

(** ** The interactive harness *)

Section HarnessProperties.

Context `{engine : Engine}.

Implicit Types (st : State) (stdin : list string) (argv : list string).

Lemma initialize_model_store model_path n_ctx n_gpu_layers verbose st :
  store (initialize_model model_path n_ctx n_gpu_layers verbose st).2
  = store st.
Proof.
  unfold initialize_model. destruct (llama_model st); [done|].
  by destruct (Llama_new _ _ _ _).
Qed.

(** From a state without a model, a call that raises leaves none and a call
    that returns leaves one. *)
Lemma initialize_model_None model_path n_ctx n_gpu_layers verbose st :
  llama_model st = None →
  match initialize_model model_path n_ctx n_gpu_layers verbose st with
  | (inl e, st') =>
      Llama_new model_path n_ctx n_gpu_layers verbose = raise e ∧
      llama_model st' = None
  | (inr _, st') => is_Some (llama_model st')
  end.
Proof.
  intros Hm. unfold initialize_model. rewrite Hm.
  destruct (Llama_new _ _ _ _) as [e|model]; simpl; [done | by eexists].
Qed.

Lemma cleanup_model_None st : llama_model (cleanup_model st) = None.
Proof. unfold cleanup_model. by destruct (llama_model st) eqn:Hm. Qed.

Lemma cleanup_model_store st : store (cleanup_model st) = store st.
Proof. unfold cleanup_model. by destruct (llama_model st). Qed.

(** The loop keeps every list object. *)
Lemma chat_loop_frame stdin history st l (v : list Message) :
  store st !! l = Some v →
  store (chat_loop stdin history st).2 !! l = Some v.
Proof.
  revert history st. induction stdin as [|line stdin IH]; intros history st Hl;
    [done|].
  simpl. destruct (is_quit line); [done|].
  pose proof (get_primer_response_frame line history None st l v Hl) as Hf.
  destruct (get_primer_response line history None st) as [[response h'] st'].
  by apply IH.
Qed.

(** The loop neither loads nor releases the model. *)
Lemma chat_loop_loaded stdin history st :
  is_Some (llama_model (chat_loop stdin history st).2)
  ↔ is_Some (llama_model st).
Proof.
  revert history st. induction stdin as [|line stdin IH]; intros history st;
    [done|].
  simpl. destruct (is_quit line); [done|].
  pose proof (get_primer_response_loaded line history None st) as Hf.
  destruct (get_primer_response line history None st) as [[response h'] st'].
  by rewrite IH.
Qed.

(** The loop ends by [break] exactly when some line is a quit line. *)
Lemma chat_loop_end stdin history st :
  match (chat_loop stdin history st).1.1.1 with
  | Break => Exists (λ line, is_quit line = true) stdin
  | EOFError => Forall (λ line, is_quit line = false) stdin
  end.
Proof.
  revert history st. induction stdin as [|line stdin IH]; intros history st.
  - by apply Forall_nil.
  - simpl. destruct (is_quit line) eqn:Hq; [by apply Exists_cons_hd|].
    destruct (get_primer_response line history None st) as [[response h'] st'].
    specialize (IH h' (print ("AI: " +:+ response) st')).
    destruct (chat_loop stdin h' _).1.1.1.
    + by apply Exists_cons_tl.
    + by apply Forall_cons.
Qed.

(** What follows a quit line is not read. *)
Lemma chat_loop_quit (before after : list string) quit history st :
  is_quit quit = true →
  let r := chat_loop (before ++ quit :: after) history st in
  let r' := chat_loop (before ++ [quit]) history st in
  r.1.1.1 = Break ∧ r'.1.1.1 = Break ∧ r.1.2 = r'.1.2 ∧ r.2 = r'.2.
Proof.
  intros Hq. revert history st.
  induction before as [|line before IH]; intros history st; simpl.
  - by rewrite Hq.
  - destruct (is_quit line); [done|].
    destruct (get_primer_response line history None st) as [[response h'] st'].
    apply IH.
Qed.

(** X16: without the model path on the command line the script prints the
    usage line, as its only line, and exits with status 1; no model is
    loaded and the standard input is not read. *)
Theorem main_usage argv stdin :
  length argv < 2 →
  (main argv stdin).1 = SysExit 1 ∧
  stdout (main argv stdin).2 =
    ["Usage: python llama_chat.py <path_to_gguf_model>"] ∧
  llama_model (main argv stdin).2 = None ∧
  main argv stdin = main argv [].
Proof.
  intros Hlen. unfold main.
  destruct (Nat.ltb_spec (length argv) 2) as [_|Hge]; [done | lia].
Qed.

(** X17: when the model cannot be loaded, the exception of the constructor
    ends the script: the loop is not entered, no line of the standard input
    is read, no model is loaded, and the lines printed are the banner, the
    loading line and the error line. *)
Theorem main_load_failure argv stdin model_path e :
  argv !! 1%nat = Some model_path →
  Llama_new model_path 2048 0 false = raise e →
  (main argv stdin).1 = Uncaught e ∧
  llama_model (main argv stdin).2 = None ∧
  stdout (main argv stdin).2 =
    ["llama.cpp Chat Test: I am Primer, your AI teacher. Type 'quit' to exit.";
     "Loading llama.cpp model from: " +:+ model_path;
     "Error loading model: " +:+ str_exn e] ∧
  main argv stdin = main argv [].
Proof.
  intros Hargv Hnew. unfold main.
  destruct (Nat.ltb_spec (length argv) 2) as [Hlt|_].
  { apply lookup_lt_Some in Hargv. lia. }
  rewrite Hargv. unfold initialize_model. simpl. by rewrite Hnew.
Qed.

(** X18: the script leaves a model loaded in one case only: when the
    standard input ends before a quit line, [input] raises [EOFError], the
    call of [cleanup_model] is not reached and the model stays loaded.  In
    every other ending no model is loaded. *)
Theorem main_releases_model argv stdin :
  llama_model (main argv stdin).2 = None
  ↔ (main argv stdin).1 ≠ UncaughtEOFError.
Proof.
  unfold main. destruct (length argv <? 2)%nat; [done|].
  destruct (argv !! 1%nat) as [model_path|]; [|done].
  set (st0 := print _ imported).
  pose proof (initialize_model_None model_path 2048 0 false st0 eq_refl) as Hi.
  destruct (initialize_model model_path 2048 0 false st0) as [[e|u] st1].
  { simpl. destruct Hi as [_ ->]. by split. }
  pose proof (chat_loop_loaded stdin INITIAL_MESSAGES_HISTORY_ref st1) as Hl.
  destruct (chat_loop stdin INITIAL_MESSAGES_HISTORY_ref st1)
    as [[[[] unread] h'] st2]; simpl in *.
  - split; [done|]. intros _. apply cleanup_model_None.
  - apply Hl in Hi. destruct Hi as [model ->]. done.
Qed.

(** X19: what follows a quit line on the standard input has no effect:
    the script ends as it does when the input stops at that line, in the
    same state, and it does not end by [EOFError]. *)
Theorem main_quit_ignores_rest argv (before after : list string) quit :
  is_quit quit = true →
  main argv (before ++ quit :: after) = main argv (before ++ [quit]) ∧
  (main argv (before ++ quit :: after)).1 ≠ UncaughtEOFError.
Proof.
  intros Hq. unfold main. destruct (length argv <? 2)%nat; [done|].
  destruct (argv !! 1%nat) as [model_path|]; [|done].
  destruct (initialize_model model_path 2048 0 false _) as [[e|u] st1]; [done|].
  destruct (chat_loop_quit before after quit INITIAL_MESSAGES_HISTORY_ref
                           st1 Hq) as (Hb & Hb' & _ & Hst).
  destruct (chat_loop (before ++ quit :: after) _ st1)
    as [[[[] unread] h] st2];
    destruct (chat_loop (before ++ [quit]) _ st1)
    as [[[[] unread'] h'] st2']; simpl in *; try done.
  by rewrite Hst.
Qed.

(** X20: the script reaches its last line only through a quit line, and it
    ends by [EOFError] only when no line of the standard input is a quit
    line. *)
Theorem main_ends_by_quit_or_eof argv stdin :
  match (main argv stdin).1 with
  | Finished => Exists (λ line, is_quit line = true) stdin
  | UncaughtEOFError => Forall (λ line, is_quit line = false) stdin
  | SysExit code => code = 1%Z ∧ (length argv < 2)%nat
  | Uncaught e =>
      ∃ model_path, argv !! 1%nat = Some model_path ∧
                    Llama_new model_path 2048 0 false = raise e
  end.
Proof.
  unfold main. destruct (Nat.ltb_spec (length argv) 2) as [Hlt|Hge]; [done|].
  destruct (argv !! 1%nat) as [model_path|] eqn:Hargv.
  2: { apply lookup_ge_None in Hargv. lia. }
  set (st0 := print _ imported).
  pose proof (initialize_model_None model_path 2048 0 false st0 eq_refl) as Hi.
  destruct (initialize_model model_path 2048 0 false st0) as [[e|u] st1].
  { exists model_path. by destruct Hi. }
  pose proof (chat_loop_end stdin INITIAL_MESSAGES_HISTORY_ref st1) as He.
  by destruct (chat_loop stdin INITIAL_MESSAGES_HISTORY_ref st1)
    as [[[[] unread] h'] st2].
Qed.

Lemma imported_seed :
  store imported !! INITIAL_MESSAGES_HISTORY_ref = Some INITIAL_MESSAGES_HISTORY
  ∧ store imported !! EXAMPLE_INTERACTIONS_ref = Some EXAMPLE_INTERACTIONS.
Proof.
  unfold imported. simpl. split.
  - apply lookup_insert_eq.
  - rewrite lookup_insert_ne by done. apply lookup_insert_eq.
Qed.

(** X21: no run of the script changes the lists of the module: whatever
    the command line and the conversation, [INITIAL_MESSAGES_HISTORY] and
    [EXAMPLE_INTERACTIONS] have at the end the content they had at import,
    although the first turn is made on [INITIAL_MESSAGES_HISTORY] itself. *)
Theorem main_keeps_seed argv stdin :
  deref (main argv stdin).2 INITIAL_MESSAGES_HISTORY_ref
    = INITIAL_MESSAGES_HISTORY ∧
  deref (main argv stdin).2 EXAMPLE_INTERACTIONS_ref = EXAMPLE_INTERACTIONS.
Proof.
  assert (∀ l v, store imported !! l = Some v →
                 store (main argv stdin).2 !! l = Some v) as Hframe.
  { intros l v Hl. unfold main. destruct (length argv <? 2)%nat; [done|].
    destruct (argv !! 1%nat) as [model_path|]; [|done].
    set (st0 := print _ imported).
    pose proof (initialize_model_store model_path 2048 0 false st0) as Hs.
    destruct (initialize_model model_path 2048 0 false st0) as [[e|u] st1];
      cbn [fst snd] in *; [by rewrite Hs|].
    assert (store st1 !! l = Some v) as Hl1 by by rewrite Hs.
    pose proof (chat_loop_frame stdin INITIAL_MESSAGES_HISTORY_ref st1 l v Hl1)
      as Hf.
    destruct (chat_loop stdin INITIAL_MESSAGES_HISTORY_ref st1)
      as [[[[] unread] h'] st2]; simpl in *; [|done].
    by rewrite cleanup_model_store. }
  destruct imported_seed as [Hi He].
  split; apply deref_lookup; by apply Hframe.
Qed.

Lemma deref_print line st l : deref (print line st) l = deref st l.
Proof. done. Qed.

(** The lines printed and the lines read determine the turns: two traces
    with the same lines and the same printed lines, whose failed turns have
    replies starting with [Confused:], are the same. *)
Lemma transcript_determines_trace (trace1 trace2 : list turn) :
  Forall (λ t, turn_ok t = false → startswith "Confused:" (turn_reply t))
         trace1 →
  Forall (λ t, turn_ok t = false → startswith "Confused:" (turn_reply t))
         trace2 →
  map turn_line trace1 = map turn_line trace2 →
  flat_map turn_printed trace1 = flat_map turn_printed trace2 →
  trace1 = trace2.
Proof.
  intros H1. revert trace2.
  induction H1 as [|[l1 r1 ok1] trace1 Hc1 _ IH]; intros trace2 H2 Hl Hp.
  { by destruct trace2. }
  destruct H2 as [|[l2 r2 ok2] trace2 Hc2 H2]; [done|].
  simpl in Hl. injection Hl as -> Hl. simpl in Hc1, Hc2.
  cbn [flat_map] in Hp. unfold turn_printed in Hp. simpl in Hp.
  destruct ok1, ok2; simpl in Hp.
  - injection Hp as Hr Hp. change (r1 = r2) in Hr. subst r2.
    f_equal. by apply IH.
  - injection Hp as Hr _. destruct (Hc2 eq_refl) as [x Hx].
    rewrite Hx in Hr. discriminate.
  - injection Hp as Hr _. destruct (Hc1 eq_refl) as [x Hx].
    rewrite Hx in Hr. discriminate.
  - injection Hp as -> _ Hp. f_equal. by apply IH.
Qed.

(** X22: the history that the loop holds and the lines it prints tell the
    same story, turn by turn.  There is one list of turns, one for each
    line read before the first quit line and in that order, such that the
    history is the starting one followed by the exchange (the line, then
    the reply) of every turn that succeeded and by nothing for a turn that
    failed; the lines printed are, for a successful turn, [AI: ] with the
    reply, and for a failed one the reply, which starts with [Confused:],
    and then [AI: ] with it.  The lines printed determine that list. *)
Theorem chat_loop_history stdin history st hist :
  store st !! history = Some hist →
  let r := chat_loop stdin history st in
  ∃ trace : list turn,
    map turn_line trace = before_quit stdin ∧
    deref r.2 r.1.2 = hist ++ flat_map turn_messages trace ∧
    stdout r.2 = stdout st ++ flat_map turn_printed trace ∧
    Forall (λ t, turn_ok t = false → startswith "Confused:" (turn_reply t))
           trace ∧
    ∀ trace' : list turn,
      map turn_line trace' = before_quit stdin →
      stdout r.2 = stdout st ++ flat_map turn_printed trace' →
      Forall (λ t, turn_ok t = false → startswith "Confused:" (turn_reply t))
             trace' →
      trace' = trace.
Proof.
  intros Hh r. subst r.
  cut (∃ trace : list turn,
         map turn_line trace = before_quit stdin ∧
         deref (chat_loop stdin history st).2 (chat_loop stdin history st).1.2
           = hist ++ flat_map turn_messages trace ∧
         stdout (chat_loop stdin history st).2
           = stdout st ++ flat_map turn_printed trace ∧
         Forall (λ t, turn_ok t = false →
                      startswith "Confused:" (turn_reply t)) trace).
  { intros (trace & Hl & Hd & Hp & Hc). exists trace. split_and!; try done.
    intros trace' Hl' Hp' Hc'. rewrite Hp in Hp'. apply app_inv_head in Hp'.
    apply transcript_determines_trace; [done..|congruence|done]. }
  revert history st hist Hh.
  induction stdin as [|line stdin IH]; intros history st hist Hh.
  { exists []. simpl. rewrite !app_nil_r.
    split_and!; [done | by apply deref_lookup | done | by apply Forall_nil]. }
  simpl. destruct (is_quit line).
  { exists []. simpl. rewrite !app_nil_r.
    split_and!; [done | by apply deref_lookup | done | by apply Forall_nil]. }
  pose proof (get_primer_response_outcome line history None st) as Ho.
  pose proof (get_primer_response_frame line history None st _ _ Hh) as Hf.
  destruct (get_primer_response line history None st) as [[response h'] st'].
  simpl in Ho, Hf.
  destruct Ho as [(-> & Hconfused & Hout)|(_ & Hd & Hout)].
  - destruct (IH history (print ("AI: " +:+ response) st') hist Hf)
      as (trace & Hl & Hd & Hp & Hc).
    exists (mkTurn line response false :: trace). split_and!.
    + simpl. by rewrite Hl.
    + done.
    + rewrite Hp. simpl. rewrite Hout. by rewrite <-!app_assoc.
    + apply Forall_cons. by split.
  - rewrite (deref_lookup _ _ _ Hh) in Hd.
    apply deref_nonempty_lookup in Hd; [|by destruct hist].
    destruct (IH h' (print ("AI: " +:+ response) st') _ Hd)
      as (trace & Hl & Hd' & Hp & Hc).
    exists (mkTurn line response true :: trace). split_and!.
    + simpl. by rewrite Hl.
    + rewrite Hd'. simpl. by rewrite <-app_assoc.
    + rewrite Hp. simpl. rewrite Hout. by rewrite <-!app_assoc.
    + apply Forall_cons. by split.
Qed.

End HarnessProperties.

(** ** The further properties on sample inputs *)

Lemma respond_changes_no_list_witness :
  store (sample_state (stub_engine " hi ") (Some 0%nat)) !! 1%positive
    = Some sample_history ∧
  store (get_primer_response (engine := stub_engine " hi ") "U" 1%positive None
           (sample_state (stub_engine " hi ") (Some 0%nat))).2 !! 1%positive
    = Some sample_history.
Proof.
  split; [reflexivity|].
  apply (respond_changes_no_list (engine := stub_engine " hi ")
           "U" 1%positive None
           (sample_state (stub_engine " hi ") (Some 0%nat))
           1%positive sample_history eq_refl).
Defined.

Lemma respond_reply_is_stripped_witness :
  (get_primer_response (engine := stub_engine sample_padded) "U" 1%positive
     None (sample_state (stub_engine sample_padded) (Some 0%nat))).1.2
  ≠ 1%positive ∧
  ∀ c rest,
    isspace c = true →
    (get_primer_response (engine := stub_engine sample_padded) "U" 1%positive
       None (sample_state (stub_engine sample_padded) (Some 0%nat))).1.1
    ≠ c +:+ rest ∧
    (get_primer_response (engine := stub_engine sample_padded) "U" 1%positive
       None (sample_state (stub_engine sample_padded) (Some 0%nat))).1.1
    ≠ rest +:+ c.
Proof.
  assert ((get_primer_response (engine := stub_engine sample_padded) "U"
             1%positive None
             (sample_state (stub_engine sample_padded) (Some 0%nat))).1.2
          ≠ 1%positive) as Hne by (by vm_compute).
  split; [exact Hne|].
  apply (respond_reply_is_stripped (engine := stub_engine sample_padded)
           "U" 1%positive None
           (sample_state (stub_engine sample_padded) (Some 0%nat)) Hne).
Defined.

Lemma respond_malformed_history_witness :
  format_prompt
    (deref (mkState (engine := stub_engine " hi ") (Some 0%nat)
                    {[ 1%positive := [ {[ "content" := "x" ]} ] ]} [])
           1%positive ++ [message "user" "U"])
  = raise (KeyError "role") ∧
  (get_primer_response (engine := stub_engine " hi ") "U" 1%positive None
     (mkState (engine := stub_engine " hi ") (Some 0%nat)
              {[ 1%positive := [ {[ "content" := "x" ]} ] ]} [])).1
  = ("Confused: Error generating response: 'role'", 1%positive).
Proof.
  assert (format_prompt
            (deref (mkState (engine := stub_engine " hi ") (Some 0%nat)
                            {[ 1%positive := [ {[ "content" := "x" ]} ] ]} [])
                   1%positive ++ [message "user" "U"])
          = raise (KeyError "role")) as Hp by (vm_compute; reflexivity).
  split; [exact Hp|].
  apply (respond_malformed_history (engine := stub_engine " hi ")
           "U" 1%positive None
           (mkState (engine := stub_engine " hi ") (Some 0%nat)
                    {[ 1%positive := [ {[ "content" := "x" ]} ] ]} [])
           0%nat (KeyError "role") eq_refl Hp).
Defined.

Lemma respond_blank_generation_witness :
  generate (engine := stub_engine (String.concat "" sample_blank)) 0%nat
           sample_prompt
    = (ret {[ "choices" := [ {[ "text" := String.concat "" sample_blank ]} ] ]},
       1%nat) ∧
  Forall (λ c, isspace c = true) sample_blank ∧
  (get_primer_response (engine := stub_engine (String.concat "" sample_blank))
     "U" 1%positive None
     (sample_state (stub_engine (String.concat "" sample_blank))
                   (Some 0%nat))).1.1 = "".
Proof.
  assert (Forall (λ c, isspace c = true) sample_blank) as Hblank.
  { unfold sample_blank. repeat (apply Forall_cons; split; [by vm_compute|]).
    by apply Forall_nil. }
  split_and!; [reflexivity | exact Hblank |].
  apply (respond_blank_generation
           (engine := stub_engine (String.concat "" sample_blank))
           "U" 1%positive None
           (sample_state (stub_engine (String.concat "" sample_blank))
                         (Some 0%nat))
           0%nat sample_prompt
           {[ "choices" := [ {[ "text" := String.concat "" sample_blank ]} ] ]}
           1%nat {[ "text" := String.concat "" sample_blank ]} []
           sample_blank);
    [reflexivity | by vm_compute | reflexivity | by vm_compute
    | by vm_compute | exact Hblank].
Defined.

Lemma initialize_model_after_cleanup_witness :
  Llama_new (Engine := stub_engine " hi ") "primer.gguf" 2048 0 false
    = ret 0%nat ∧
  llama_model
    (initialize_model (engine := stub_engine " hi ") "primer.gguf" 2048 0
       false
       (cleanup_model (sample_state (stub_engine " hi ") (Some 7%nat)))).2
  = Some 0%nat.
Proof.
  split; [reflexivity|].
  apply (initialize_model_after_cleanup (engine := stub_engine " hi ")
           "primer.gguf" 2048 0 false
           (sample_state (stub_engine " hi ") (Some 7%nat)) 0%nat eq_refl).
Defined.

Lemma respond_two_turns_witness :
  store (sample_state (stub_engine " hi ") (Some 0%nat)) !! 1%positive
    = Some sample_history ∧
  deref
    (get_primer_response (engine := stub_engine " hi ") "V"
       (get_primer_response (engine := stub_engine " hi ") "U" 1%positive
          None (sample_state (stub_engine " hi ") (Some 0%nat))).1.2
       None
       (get_primer_response (engine := stub_engine " hi ") "U" 1%positive
          None (sample_state (stub_engine " hi ") (Some 0%nat))).2).2
    1%positive
  = sample_history.
Proof.
  split; [reflexivity|].
  apply (respond_two_turns (engine := stub_engine " hi ")
           "U" "V" 1%positive None None
           (sample_state (stub_engine " hi ") (Some 0%nat)) sample_history
           eq_refl); by vm_compute.
Defined.

Lemma main_usage_witness :
  length ["llama_chat.py"] < 2 ∧
  (main (engine := stub_engine " hi ") ["llama_chat.py"] ["hello"]).1
  = SysExit 1.
Proof.
  assert (length ["llama_chat.py"] < 2) as Hlen by (simpl; lia).
  split; [exact Hlen|].
  apply (main_usage (engine := stub_engine " hi ")
           ["llama_chat.py"] ["hello"] Hlen).
Defined.

Lemma main_load_failure_witness :
  ["llama_chat.py"; ""] !! 1%nat = Some "" ∧
  Llama_new (Engine := broken_engine) "" 2048 0 false
    = raise (EngineError "Failed to load model from file: ") ∧
  (main (engine := broken_engine) ["llama_chat.py"; ""] ["hello"]).1
  = Uncaught (EngineError "Failed to load model from file: ").
Proof.
  split_and!; [reflexivity | reflexivity |].
  apply (main_load_failure (engine := broken_engine)
           ["llama_chat.py"; ""] ["hello"] ""
           (EngineError "Failed to load model from file: ") eq_refl eq_refl).
Defined.

Lemma main_quit_ignores_rest_witness :
  is_quit "QuIt" = true ∧
  main (engine := stub_engine " hi ") ["llama_chat.py"; "primer.gguf"]
       (["hello"] ++ "QuIt" :: ["more"])
  = main (engine := stub_engine " hi ") ["llama_chat.py"; "primer.gguf"]
         (["hello"] ++ ["QuIt"]).
Proof.
  split; [reflexivity|].
  apply (main_quit_ignores_rest (engine := stub_engine " hi ")
           ["llama_chat.py"; "primer.gguf"] ["hello"] ["more"] "QuIt"
           eq_refl).
Defined.

Lemma chat_loop_history_witness :
  store (sample_state (stub_engine " hi ") (Some 0%nat)) !! 1%positive
    = Some sample_history ∧
  ∃ trace : list turn,
    map turn_line trace = before_quit ["hello"; "quit"; "more"] ∧
    deref
      (chat_loop (engine := stub_engine " hi ") ["hello"; "quit"; "more"]
         1%positive (sample_state (stub_engine " hi ") (Some 0%nat))).2
      (chat_loop (engine := stub_engine " hi ") ["hello"; "quit"; "more"]
         1%positive (sample_state (stub_engine " hi ") (Some 0%nat))).1.2
    = sample_history ++ flat_map turn_messages trace.
Proof.
  split; [reflexivity|].
  destruct (chat_loop_history (engine := stub_engine " hi ")
              ["hello"; "quit"; "more"] 1%positive
              (sample_state (stub_engine " hi ") (Some 0%nat)) sample_history
              eq_refl) as (trace & Hl & Hd & _).
  exists trace. split; [exact Hl | exact Hd].
Defined.

(** One turn on [sample_history] with an engine whose generation is
    [sample_padded]: the reply is the text without the white space around
    it, and the loop records the exchange. *)
Example respond_sample_padded :
  (get_primer_response (engine := stub_engine sample_padded) "U" 1%positive
     None (sample_state (stub_engine sample_padded) (Some 0%nat))).1.1
  = "hi".
Proof. vm_compute. reflexivity. Qed.

Example chat_loop_sample :
  deref
    (chat_loop (engine := stub_engine sample_padded) ["hello"; "quit"]
       1%positive (sample_state (stub_engine sample_padded) (Some 0%nat))).2
    (chat_loop (engine := stub_engine sample_padded) ["hello"; "quit"]
       1%positive (sample_state (stub_engine sample_padded) (Some 0%nat))).1.2
  = sample_history ++ exchange "hello" "hi".
Proof. vm_compute. reflexivity. Qed.
